(** * mawt: the fadecandy bridge (package [mawt], file fadecandy.go)

    A shallow embedding of the status subscriber started by
    [StartFadeCandy], of the render loop [FadeCandy.run], of the frame
    streamer [FadeCandy.RunLoop], of [FadeCandy.Send] and of [sendErr],
    followed by the properties of the specification that concern them.

    Go values are modelled as follows.  Fixed-width unsigned integers are
    integers of [Z] with the truncation of every conversion written out
    ([uint8], [uint16]); a [time.Duration] is its number of nanoseconds;
    a pointer that may be [nil] is an [option]; a slice is a [list]; a
    run-time panic is the [None] of the option monad; the key/value context
    of an [errors.Error] is a finite map.  Each loop is a function of the
    sequence of choices its [select] statements make, which are inputs
    supplied by the scheduler and the environment. *)

From Stdlib Require Import ZArith Lia Bool.
From stdpp Require Import base option list strings pretty gmap.

Open Scope Z_scope.

(** ** Go integer conversions *)

Module GoInt.

Definition uint8 (x : Z) : Z := x mod 2 ^ 8.
Definition uint16 (x : Z) : Z := x mod 2 ^ 16.

End GoInt.

(** ** time.Duration, in nanoseconds *)

Module time.

Definition Duration := Z.
Definition Nanosecond : Duration := 1.
Definition Millisecond : Duration := 1000000 * Nanosecond.
Definition Second : Duration := 1000 * Millisecond.

End time.

(** ** image/color

    The elements of a strand buffer are used through the one method of
    Go's [color.Color] interface, [RGBA() (r, g, b, a uint32)].  The
    interface is a type class; [rgba] is the standard library's struct
    [color.RGBA] of four 8-bit channels with its method, which widens every
    channel to 16 bits by [c |= c << 8]. *)

Module color.

Class Color (C : Type) := RGBA : C -> Z * Z * Z * Z.

Record rgba := mkRGBA { R : Z; G : Z; B : Z; A : Z }.

Definition is_uint8 (x : Z) : Prop := 0 <= x < 256.

Definition valid (c : rgba) : Prop :=
  is_uint8 (R c) /\ is_uint8 (G c) /\ is_uint8 (B c) /\ is_uint8 (A c).

Definition widen (c : Z) : Z := Z.lor c (Z.shiftl c 8).

#[global] Instance rgba_Color : Color rgba :=
  fun c => (widen (R c), widen (G c), widen (B c), widen (A c)).

End color.

(** ** github.com/kellydunn/go-opc

    The part of the Open Pixel Control client library that the bridge
    calls: a message is a channel byte, a command byte, a 16-bit length and
    a data slice.  [SetLength] records the length and allocates that many
    zero bytes; [SetPixelColor] stores three bytes at offset [3 * pixel],
    each store being a Go slice assignment, which panics out of range. *)

Module opc.

Record Message := mkMessage {
  channel : Z;
  command : Z;
  length : Z;
  data : list Z
}.

Definition NewMessage (ch : Z) : Message :=
  {| channel := ch; command := 0; length := 0; data := [] |}.

Definition SetLength (m : Message) (ln : Z) : Message :=
  {| channel := channel m; command := command m; length := ln;
     data := replicate (Z.to_nat ln) 0 |}.

Definition withData (m : Message) (d : list Z) : Message :=
  {| channel := channel m; command := command m; length := length m;
     data := d |}.

(** [d[i] = v] on a slice. *)
Definition store (d : list Z) (i : nat) (v : Z) : option (list Z) :=
  if decide (i < List.length d)%nat then Some (<[i:=v]> d) else None.

Definition SetPixelColor (m : Message) (pixel : nat) (r g b : Z)
  : option Message :=
  let index := (3 * pixel)%nat in
  d1 ← store (data m) index r;
  d2 ← store d1 (index + 1)%nat g;
  d3 ← store d2 (index + 2)%nat b;
  Some (withData m d3).

(** A client owns the connection.  What the device server answers is not
    the bridge's to decide: [dial] is the outcome of connecting to an
    address and [transport n m] the outcome of writing message [m] as the
    [n]-th write of the connection ([None] is Go's [nil] error, [Some s] an
    error with text [s]); [writes] counts the writes made so far. *)

Record Client := mkClient {
  dial : string -> option string;
  transport : nat -> Message -> option string;
  writes : nat
}.

Definition Connect (c : Client) (network address : string) : option string :=
  dial c address.

Definition Send (c : Client) (m : Message) : option string * Client :=
  (transport c (writes c) m,
   {| dial := dial c; transport := transport c; writes := S (writes c) |}).

End opc.

(** ** github.com/karlmutch/errors and github.com/go-stack/stack

    An error is a message with a key/value context; [With] adds a pair.
    [stack.Trace().TrimRuntime()] is the call stack at the point of the
    call; it is represented by the name of the function that takes it. *)

Module errors.

Record Error := mkError {
  message : string;
  context : gmap string string
}.

Definition New (msg : string) : Error :=
  {| message := msg; context := ∅ |}.

Definition Wrap (errGo : string) : Error :=
  {| message := errGo; context := ∅ |}.

Definition With (e : Error) (key value : string) : Error :=
  {| message := message e; context := <[key := value]> (context e) |}.

Definition ErrorString (e : Error) : string := message e.

End errors.

Module stack.

Definition Trace (caller : string) : string := caller.

End stack.

(** ** Channels, as a sender sees them in a [select] with a timeout

    [chan<- errors.Error] is [nil], open or closed.  For an open channel
    the environment decides when a send can go through (a free slot in the
    buffer or a receiver waiting): [ready = Some t] says after [t]
    nanoseconds, [None] says never.  A send on a closed channel can always
    proceed, and panics; a send on a [nil] channel never proceeds. *)

Inductive Chan :=
| ChNil
| ChOpen (ready : option time.Duration)
| ChClosed.

(** [select { case ch <- v: ...; case <-time.After(timeout): ... }]: which
    case ran and how long the select waited; [None] is the panic of a send
    on a closed channel.  When both become ready at the same instant Go
    picks either; the timer is taken here. *)

Inductive Chosen := CaseSend | CaseTimeout.

Definition selectSend (ch : Chan) (timeout : time.Duration)
  : option (Chosen * time.Duration) :=
  match ch with
  | ChClosed => None
  | ChNil => Some (CaseTimeout, timeout)
  | ChOpen None => Some (CaseTimeout, timeout)
  | ChOpen (Some t) =>
      if decide (t < timeout) then Some (CaseSend, t)
      else Some (CaseTimeout, timeout)
  end.

(** What a goroutine does that others can see. *)

Inductive Output :=
| ChanSend (e : errors.Error)
| Stdout (line : string)
| Stderr (line : string).

(** ** sendErr *)


(** The two selects that [FadeCandy.run] writes in line: they send [sent]
    and, after 100 ms, print [err.Error()] on the standard error stream.
    There is no test for a [nil] channel here. *)

Definition reportInline (errorC : Chan) (sent err : errors.Error)
  : option (list Output * time.Duration) :=
  '(chosen, waited) ← selectSend errorC (100 * time.Millisecond);
  match chosen with
  | CaseSend => Some ([ChanSend sent], waited)
  | CaseTimeout => Some ([Stderr (errors.ErrorString err)], waited)
  end.

(** ** FadeCandy and FadeCandy.Send *)

Record FadeCandy := mkFadeCandy { oc : option opc.Client }.

Definition Send (fc : FadeCandy) (m : option opc.Message)
  : option errors.Error * FadeCandy :=
  match oc fc with
  | None =>
      (Some (errors.With (errors.New "fadecandy server not online")
               "stack" (stack.Trace "FadeCandy.Send")), fc)
  | Some client =>
      match m with
      | None =>
          (Some (errors.With (errors.New "invalid message")
                   "stack" (stack.Trace "FadeCandy.Send")), fc)
      | Some msg =>
          let '(errGo, client') := opc.Send client msg in
          match errGo with
          | Some e =>
              (Some (errors.With (errors.Wrap e)
                       "stack" (stack.Trace "FadeCandy.Send")),
               {| oc := Some client' |})
          | None => (None, {| oc := Some client' |})
          end
      end
  end.

(** The three errors of [Send]. *)

Definition notOnline : errors.Error :=
  errors.With (errors.New "fadecandy server not online")
    "stack" (stack.Trace "FadeCandy.Send").

Definition invalidMessage : errors.Error :=
  errors.With (errors.New "invalid message")
    "stack" (stack.Trace "FadeCandy.Send").

Definition transportFailure (errGo : string) : errors.Error :=
  errors.With (errors.Wrap errGo) "stack" (stack.Trace "FadeCandy.Send").

(** ** bytes.Compare: lexicographic order on byte slices *)

Module bytes.

Fixpoint Compare (a b : list Z) : Z :=
  match a, b with
  | [], [] => 0
  | [], _ :: _ => -1
  | _ :: _, [] => 1
  | x :: a', y :: b' =>
      if decide (x < y) then -1
      else if decide (y < x) then 1
      else Compare a' b'
  end.

End bytes.

(** ** fmt: the two verbs the bridge uses on integers *)

Module fmt.

(** [%d] *)
Definition d (n : Z) : string := pretty n.

(** [%02d] *)
Definition d02 (n : Z) : string :=
  if decide (0 <= n < 10) then "0" +:+ pretty n else pretty n.

Definition ESC : string := String (Ascii.ascii_of_nat 27) EmptyString.

End fmt.

(** What a [select] of one of the three loops chose: its first case, with
    what the iteration then reads from outside, or [<-quitC]. *)

Inductive Select (A : Type) :=
| Fired (a : A)
| QuitClosed.

Arguments Fired {A} a.
Arguments QuitClosed {A}.

(** How far a goroutine got: it returned, it is blocked in a [select]
    waiting for the next choice, or it panicked. *)

Inductive Exit := Returned | Blocked | Panicked.

Section Bridge.

(** [Status] is the portal status, declared elsewhere in the package, and
    [Md5 s] is [structhash.Md5(s, 1)], the digest of its serialized form. *)
Context {Status : Type}.
Variable Md5 : option Status -> list Z.

(** The type of the elements of a strand buffer, with its [RGBA] method. *)
Context {C : Type} `{color.Color C}.

(** Modelled from the spec: [PortalMsg] and [Status.DeepCopy] are declared
    in files of the package other than fadecandy.go.  A message carries
    the origin flag [Home] and a status; [DeepCopy] returns an independent
    copy of a snapshot, which for immutable values is the value itself. *)
Record PortalMsg := mkPortalMsg {
  Home : bool;
  PortalMsg_Status : option Status
}.

Definition DeepCopy (s : option Status) : option Status := s.

(** [LastStatus]: the pointer guarded by the embedded mutex.  Both critical
    sections are one read or one write, so each is one atomic step. *)
Record LastStatus := mkLastStatus { status : option Status }.

Inductive Effect :=
| Out (o : Output)
| Report (e : errors.Error)             (* the call sendErr(errorC, e) *)
| Wait (d : time.Duration)              (* a select arms time.After(d) *)
| Render (snapshot : option Status)     (* test8LED(0.15, snapshot) *)
| ProcessFrame                          (* sr.ProcessFrame(time.Now()) *)
| UpdateUniverse (id : string)
| Sent (m : opc.Message) (err : option errors.Error)   (* fc.Send(m) *)
| GoRunLoop                             (* go fc.RunLoop(errorC, quitC) *)
| CloseStatusC
| CloseErrorC.

(** ** The subscriber goroutine of StartFadeCandy *)

Definition subscriberRecv (msg : option PortalMsg) (st : LastStatus)
  : LastStatus :=
  match msg with
  | None => st
  | Some m =>
      if Home m then {| status := DeepCopy (PortalMsg_Status m) |} else st
  end.

Fixpoint subscriber (evs : list (Select (option PortalMsg)))
  (st : LastStatus) : LastStatus * list Effect * Exit :=
  match evs with
  | [] => (st, [], Blocked)
  | Fired msg :: rest => subscriber rest (subscriberRecv msg st)
  | QuitClosed :: _ => (st, [CloseStatusC], Returned)
  end.

(** ** FadeCandy.run, the render loop *)

(** What one tick reads from outside: the cache, the result of
    [test8LED] if it is called, and the error channel as the report finds
    it. *)
Record Tick := mkTick {
  cached : option Status;
  test8LED : option errors.Error;
  tickErrorC : Chan
}.

(** Lines 101-114: sample the cache, compare digests, render on change.
    The result is the stored digest, what was done, and the error to
    report if rendering failed. *)
Definition sample (cache : option Status) (rendered : option errors.Error)
  (last : list Z) : list Z * list Effect * option errors.Error :=
  let copied := DeepCopy cache in
  let hash := Md5 copied in
  if decide (bytes.Compare last hash <> 0)
  then (hash, [Render copied], rendered)
  else (last, [], None).

Definition prepend (effs : list Effect) (r : list Effect * Exit)
  : list Effect * Exit :=
  (effs ++ r.1, r.2).

Fixpoint renderLoop (server : string) (refresh : time.Duration)
  (evs : list (Select Tick)) (last : list Z) : list Effect * Exit :=
  match evs with
  | [] => ([], Blocked)
  | QuitClosed :: _ => ([Wait refresh], Returned)
  | Fired t :: rest =>
      let '(last', effs, pending) := sample (cached t) (test8LED t) last in
      prepend (Wait refresh :: effs)
        match pending with
        | None => renderLoop server refresh rest last'
        | Some err =>
            match reportInline (tickErrorC t)
                    (errors.With err "url" server) err with
            | None => ([], Panicked)
            | Some (outs, _) =>
                prepend (Out <$> outs) (renderLoop server refresh rest last')
            end
        end
  end.

(** [fresh] is the client [opc.NewClient()] returns and [connectC] the
    error channel as the report of a failed connection finds it. *)
Definition run (fc : FadeCandy) (fresh : opc.Client) (connectC : Chan)
  (server : string) (refresh : time.Duration) (evs : list (Select Tick))
  : FadeCandy * (list Effect * Exit) :=
  let client := match oc fc with None => fresh | Some c => c end in
  match opc.Connect client "tcp" server with
  | Some errGo =>
      let fc' := {| oc := None |} in
      let err := errors.With (errors.With (errors.Wrap errGo) "url" server)
                   "stack" (stack.Trace "FadeCandy.run") in
      match reportInline connectC err err with
      | None => (fc', ([], Panicked))
      | Some (outs, _) =>
          (fc', prepend ((Out <$> outs) ++ [GoRunLoop])
                  (renderLoop server refresh evs []))
      end
  | None =>
      ({| oc := Some client |},
       prepend [GoRunLoop] (renderLoop server refresh evs []))
  end.

(** ** FadeCandy.RunLoop, the frame streamer *)

(** What one iteration reads from outside: the result of [GetStrands()]
    (an error, or for every device the lengths of its strands) and of
    [devices.GetStrandData(device, strand)]. *)
Record Frame := mkFrame {
  GetStrands : string + list (list Z);
  GetStrandData : nat -> nat -> string + list C
}.

Record LoopState := mkLoopState {
  refresh : time.Duration;
  conn : FadeCandy;
  effects : list Effect
}.

Definition emit (st : LoopState) (effs : list Effect) : LoopState :=
  {| refresh := refresh st; conn := conn st; effects := effects st ++ effs |}.

(** Lines 197-202: the color of one element after the alpha test. *)
Definition pixel (rgba : C) : Z * Z * Z :=
  let '(r, g, b, a) := color.RGBA rgba in
  if decide (a = 0) then (0, 0, 0) else (r, g, b).

(** Lines 196-205: the loop over the strand's elements, from index [i]. *)
Fixpoint fill (strandData : list C) (i : nat) (strip : string)
  (m : opc.Message) : option (string * opc.Message) :=
  match strandData with
  | [] => Some (strip, m)
  | rgba :: rest =>
      let '(r, g, b) := pixel rgba in
      let strip' :=
        strip +:+ fmt.ESC +:+ "[38;2;" +:+ fmt.d (GoInt.uint8 r) +:+ ";"
              +:+ fmt.d (GoInt.uint8 g) +:+ ";" +:+ fmt.d (GoInt.uint8 b)
              +:+ "m█" in
      m' ← opc.SetPixelColor m i (GoInt.uint8 r) (GoInt.uint8 g)
             (GoInt.uint8 b);
      fill rest (S i) strip' m'
  end.

(** Lines 192-205: the message of a strand and the line that is printed
    when it cannot be sent. *)
Definition strandMessage (strandNum : nat) (strandData : list C)
  : option (string * opc.Message) :=
  let strip := fmt.d02 (Z.of_nat strandNum) +:+ " → " in
  let m := opc.NewMessage 0 in
  let m := opc.SetLength m
             (GoInt.uint16 (Z.of_nat (List.length strandData) * 3)) in
  fill strandData 0 strip m.

(** Lines 181-214: the body of the loop over the strands of a device,
    after [strandNum++]. *)
Definition strandStep (f : Frame) (device strand : nat) (strandLen : Z)
  (strandNum : nat) (st : LoopState) : option LoopState :=
  if decide (strandLen = 0) then Some st
  else
    match GetStrandData f device strand with
    | inl errGo =>
        Some (emit st
                [Report (errors.With (errors.Wrap errGo) "stack"
                           (stack.Trace "FadeCandy.RunLoop"))])
    | inr strandData =>
        '(strip, m) ← strandMessage strandNum strandData;
        let '(err, fc') := Send (conn st) (Some m) in
        match err with
        | Some _ =>
            Some {| refresh := 5 * time.Second; conn := fc';
                    effects := effects st
                                 ++ [Sent m err; Out (Stdout strip)] |}
        | None =>
            Some {| refresh := 30 * time.Millisecond; conn := fc';
                    effects := effects st ++ [Sent m None] |}
        end
    end.

Fixpoint strandsLoop (f : Frame) (device : nat) (strands : list Z)
  (strand strandNum : nat) (st : LoopState) : option LoopState :=
  match strands with
  | [] => Some st
  | strandLen :: rest =>
      let strandNum := S strandNum in
      st' ← strandStep f device strand strandLen strandNum st;
      strandsLoop f device rest (S strand) strandNum st'
  end.

Fixpoint devicesLoop (f : Frame) (deviceStrands : list (list Z))
  (device : nat) (st : LoopState) : option LoopState :=
  match deviceStrands with
  | [] => Some st
  | strands :: rest =>
      st' ← strandsLoop f device strands 0 0 st;
      devicesLoop f rest (S device) st'
  end.

(** Lines 161-216: one iteration of the timer case. *)
Definition iteration (universes : list string) (f : Frame) (st : LoopState)
  : option LoopState :=
  let st := emit st (ProcessFrame :: (UpdateUniverse <$> universes)) in
  match GetStrands f with
  | inl errGo =>
      Some (emit st
              [Report (errors.With (errors.Wrap errGo) "stack"
                         (stack.Trace "FadeCandy.RunLoop"))])
  | inr deviceStrands => devicesLoop f deviceStrands 0 st
  end.

(** Lines 158-220.  The select arms [time.After(refresh)] with the value
    [refresh] has when the iteration starts. *)
Fixpoint streamLoop (universes : list string) (evs : list (Select Frame))
  (st : LoopState) : LoopState * Exit :=
  match evs with
  | [] => (st, Blocked)
  | ev :: rest =>
      let st := emit st [Wait (refresh st)] in
      match ev with
      | QuitClosed => (st, Returned)
      | Fired f =>
          match iteration universes f st with
          | None => (st, Panicked)
          | Some st' => streamLoop universes rest st'
          end
      end
  end.

(** The deferred [close(errorC)] runs when the function returns and when
    it panics. *)
Definition deferred (exit : Exit) : list Effect :=
  match exit with
  | Blocked => []
  | Returned | Panicked => [CloseErrorC]
  end.

(** Lines 147-155.  [seqRunner] and [topology] are the results of
    [GetSeqRunner()] and [GetUniverses()]: an error, or the list of the
    universes. *)
Definition startup (seqRunner : option errors.Error)
  (topology : errors.Error + list string) : errors.Error + list string :=
  match seqRunner with
  | Some err => inl err
  | None => topology
  end.

(** The result is the returned error, the connection, what was done, and
    how the function ended. *)
Definition RunLoop (fc : FadeCandy) (seqRunner : option errors.Error)
  (topology : errors.Error + list string) (evs : list (Select Frame))
  : option errors.Error * FadeCandy * list Effect * Exit :=
  match startup seqRunner topology with
  | inl err => (Some err, fc, deferred Returned, Returned)
  | inr universes =>
      let st := {| refresh := 30 * time.Millisecond; conn := fc;
                   effects := [] |} in
      let '(st', exit) := streamLoop universes evs st in
      (None, conn st', effects st' ++ deferred exit, exit)
  end.

(** ** The three goroutines together

    [StartFadeCandy] starts the subscriber and [run], and [run] starts
    [RunLoop] once its connection attempt is over.  They share the cache,
    [quitC] and the error channel.  Every channel operation is one atomic
    step of the goroutine that makes it, so a schedule is a list of steps;
    a step that its goroutine cannot take in the current state is refused. *)

Definition StartFadeCandy_refresh : time.Duration := 200 * time.Millisecond.

Inductive SubPc := SubSelect | SubExited.

Inductive RunPc :=
| RunSelect (last : list Z)                          (* line 99 *)
| RunReporting (last : list Z) (err : errors.Error)  (* line 115 *)
| RunExited
| RunPanicked.

Inductive StreamPc :=
| StreamStarting                                          (* line 147 *)
| StreamSelect (universes : list string) (st : LoopState) (* line 159 *)
| StreamExited (err : option errors.Error)
| StreamPanicked.

Record System := mkSystem {
  quitC_closed : bool;
  statusC_closed : bool;
  errorC_closed : bool;
  cache : LastStatus;
  subPc : SubPc;
  runPc : RunPc;
  streamPc : StreamPc;
  (* sends attempted on the error channel after it was closed *)
  sendsOnClosed : nat
}.

Inductive Step :=
| Shutdown                                   (* close(quitC), by the caller *)
| SubRecv (msg : option PortalMsg)
| SubQuit
| RunTimer (rendered : option errors.Error)
| RunReport (ready : option time.Duration)
| RunQuit
| StreamStart (seqRunner : option errors.Error)
    (topology : errors.Error + list string)
| StreamTimer (f : Frame)
| StreamQuit.

Definition initial : System :=
  {| quitC_closed := false; statusC_closed := false; errorC_closed := false;
     cache := {| status := None |};
     subPc := SubSelect; runPc := RunSelect []; streamPc := StreamStarting;
     sendsOnClosed := 0 |}.

Definition withSub (σ : System) (c : LastStatus) (pc : SubPc) (closed : bool)
  : System :=
  {| quitC_closed := quitC_closed σ; statusC_closed := closed;
     errorC_closed := errorC_closed σ; cache := c; subPc := pc;
     runPc := runPc σ; streamPc := streamPc σ;
     sendsOnClosed := sendsOnClosed σ |}.

Definition withRun (σ : System) (pc : RunPc) (attempts : nat) : System :=
  {| quitC_closed := quitC_closed σ; statusC_closed := statusC_closed σ;
     errorC_closed := errorC_closed σ; cache := cache σ; subPc := subPc σ;
     runPc := pc; streamPc := streamPc σ; sendsOnClosed := attempts |}.

Definition withStream (σ : System) (pc : StreamPc) (closed : bool) : System :=
  {| quitC_closed := quitC_closed σ; statusC_closed := statusC_closed σ;
     errorC_closed := closed; cache := cache σ; subPc := subPc σ;
     runPc := runPc σ; streamPc := pc; sendsOnClosed := sendsOnClosed σ |}.

Definition step (fc : FadeCandy) (server : string) (s : Step) (σ : System)
  : option System :=
  match s with
  | Shutdown =>
      if quitC_closed σ then None
      else Some {| quitC_closed := true; statusC_closed := statusC_closed σ;
                   errorC_closed := errorC_closed σ; cache := cache σ;
                   subPc := subPc σ; runPc := runPc σ;
                   streamPc := streamPc σ;
                   sendsOnClosed := sendsOnClosed σ |}
  | SubRecv msg =>
      match subPc σ with
      | SubSelect =>
          Some (withSub σ (subscriberRecv msg (cache σ)) SubSelect
                  (statusC_closed σ))
      | SubExited => None
      end
  | SubQuit =>
      match subPc σ with
      | SubSelect =>
          if quitC_closed σ then Some (withSub σ (cache σ) SubExited true)
          else None
      | SubExited => None
      end
  | RunTimer rendered =>
      match runPc σ with
      | RunSelect last =>
          let '(last', _, pending) :=
            sample (status (cache σ)) rendered last in
          match pending with
          | None => Some (withRun σ (RunSelect last') (sendsOnClosed σ))
          | Some err =>
              Some (withRun σ (RunReporting last' err) (sendsOnClosed σ))
          end
      | _ => None
      end
  | RunReport ready =>
      match runPc σ with
      | RunReporting last err =>
          let ch := if errorC_closed σ then ChClosed else ChOpen ready in
          match reportInline ch (errors.With err "url" server) err with
          | None => Some (withRun σ RunPanicked (S (sendsOnClosed σ)))
          | Some _ => Some (withRun σ (RunSelect last) (sendsOnClosed σ))
          end
      | _ => None
      end
  | RunQuit =>
      match runPc σ with
      | RunSelect _ =>
          if quitC_closed σ then Some (withRun σ RunExited (sendsOnClosed σ))
          else None
      | _ => None
      end
  | StreamStart seqRunner topology =>
      match streamPc σ with
      | StreamStarting =>
          match startup seqRunner topology with
          | inl err => Some (withStream σ (StreamExited (Some err)) true)
          | inr universes =>
              Some (withStream σ
                      (StreamSelect universes
                         {| refresh := 30 * time.Millisecond; conn := fc;
                            effects := [] |})
                      (errorC_closed σ))
          end
      | _ => None
      end
  | StreamTimer f =>
      match streamPc σ with
      | StreamSelect universes st =>
          match streamLoop universes [Fired f] st with
          | (st', Blocked) =>
              Some (withStream σ (StreamSelect universes st')
                      (errorC_closed σ))
          | (_, _) => Some (withStream σ StreamPanicked true)
          end
      | _ => None
      end
  | StreamQuit =>
      match streamPc σ with
      | StreamSelect universes st =>
          if quitC_closed σ then Some (withStream σ (StreamExited None) true)
          else None
      | _ => None
      end
  end.

Fixpoint exec (fc : FadeCandy) (server : string) (schedule : list Step)
  (σ : System) : option System :=
  match schedule with
  | [] => Some σ
  | s :: rest => σ' ← step fc server s σ; exec fc server rest σ'
  end.

(** The bytes a strand buffer puts on the wire: one (R, G, B) triple per
    element, in element order. *)
Definition wire (strandData : list C) : list Z :=
  strandData ≫= (λ rgba,
    let '(r, g, b) := pixel rgba in
    [GoInt.uint8 r; GoInt.uint8 g; GoInt.uint8 b]).

(** The message [strandMessage] returns for a strand buffer, when it
    returns one. *)
Definition deviceMessage (strandData : list C) : opc.Message :=
  {| opc.channel := 0; opc.command := 0;
     opc.length := Z.of_nat (List.length strandData) * 3;
     opc.data := wire strandData |}.

(** The interval that a sequence of send results leaves behind, from the
    interval [r] in force before them ([true] is a send without error). *)
Definition pacing (outcomes : list bool) (r : time.Duration)
  : time.Duration :=
  fold_left
    (fun _ ok => if ok : bool then 30 * time.Millisecond else 5 * time.Second)
    outcomes r.

(** The messages handed to [fc.Send], in order, and the outcome of each
    ([true] for no error). *)
Fixpoint sentMessages (effs : list Effect) : list opc.Message :=
  match effs with
  | [] => []
  | Sent m _ :: rest => m :: sentMessages rest
  | _ :: rest => sentMessages rest
  end.

Fixpoint sendOutcomes (effs : list Effect) : list bool :=
  match effs with
  | [] => []
  | Sent _ None :: rest => true :: sendOutcomes rest
  | Sent _ (Some _) :: rest => false :: sendOutcomes rest
  | _ :: rest => sendOutcomes rest
  end.

(** The timers the selects armed, in order. *)
Fixpoint waits (effs : list Effect) : list time.Duration :=
  match effs with
  | [] => []
  | Wait d :: rest => d :: waits rest
  | _ :: rest => waits rest
  end.

(** The snapshots [test8LED] was called with, in order. *)
Fixpoint renders (effs : list Effect) : list (option Status) :=
  match effs with
  | [] => []
  | Render s :: rest => s :: renders rest
  | _ :: rest => renders rest
  end.

(** The change detector in the specification's words: of a sequence of
    snapshots, those whose digest differs from the digest stored before
    them, the digest stored at first being [last]. *)
Fixpoint changed (last : list Z) (snaps : list (option Status))
  : list (option Status) :=
  match snaps with
  | [] => []
  | s :: rest =>
      if decide (Md5 s = last) then changed last rest
      else s :: changed (Md5 s) rest
  end.

(** What a part of the sweep may do to the loop state: append effects,
    arm no timer, and leave the interval its sends dictate. *)
Definition advances (st st' : LoopState) : Prop :=
  exists new,
    effects st' = effects st ++ new
    /\ waits new = []
    /\ refresh st' = pacing (sendOutcomes new) (refresh st).

End Bridge.

(** ** Concrete environments, for the examples

    A status is a number here and its digest sixteen bytes that tell two
    of them apart; clients differ in which writes fail. *)

Module Example.

Definition digest (s : option nat) : list Z :=
  match s with
  | None => replicate 16 0
  | Some n => replicate 15 0 ++ [1 + Z.of_nat n mod 255]
  end.

(** A client whose first [k] writes fail and whose later writes succeed. *)
Definition failing (k : nat) : opc.Client :=
  {| opc.dial := fun _ => None;
     opc.transport := fun n _ =>
       if decide (n < k)%nat then Some "broken pipe" else None;
     opc.writes := 0 |}.

(** A client that cannot connect. *)
Definition offline : opc.Client :=
  {| opc.dial := fun _ => Some "connection refused";
     opc.transport := fun _ _ => Some "not connected";
     opc.writes := 0 |}.

(** One device with the given strands, every strand showing [strandData]. *)
Definition frame (strands : list Z) (strandData : list color.rgba)
  : @Frame color.rgba :=
  {| GetStrands := inr [strands];
     GetStrandData := fun _ _ => inr strandData |}.

Definition start (fc : FadeCandy) : @LoopState nat :=
  {| refresh := 30 * time.Millisecond; conn := fc; effects := [] |}.

Definition pixels : list color.rgba :=
  [color.mkRGBA 255 10 200 0; color.mkRGBA 255 10 200 128].

End Example.

(** ** What a sweep is expected to do

    The strands of a frame that get a message: those of non-zero length
    whose buffer [GetStrandData] returns, in the order of the two loops,
    each with its strand number (the position of the strand in its device,
    counted from one).  The others either have length zero or fail with
    the error of [GetStrandData]. *)

Section Observations.

Context {Status : Type} {C : Type} `{color.Color C}.

(** The errors handed to [sendErr], the outputs, and the results of the
    calls of [Send], each in order. *)
Fixpoint reports (effs : list (@Effect Status)) : list errors.Error :=
  match effs with
  | [] => []
  | Report e :: rest => e :: reports rest
  | _ :: rest => reports rest
  end.

Fixpoint outputs (effs : list (@Effect Status)) : list Output :=
  match effs with
  | [] => []
  | Out o :: rest => o :: outputs rest
  | _ :: rest => outputs rest
  end.

Fixpoint sendResults (effs : list (@Effect Status))
  : list (option errors.Error) :=
  match effs with
  | [] => []
  | Sent _ err :: rest => err :: sendResults rest
  | _ :: rest => sendResults rest
  end.

Fixpoint strandJobs (f : @Frame C) (device : nat) (strands : list Z)
  (strand : nat) : list (nat * list C) :=
  match strands with
  | [] => []
  | strandLen :: rest =>
      (if decide (strandLen = 0) then []
       else match GetStrandData f device strand with
            | inl _ => []
            | inr strandData => [(S strand, strandData)]
            end)
        ++ strandJobs f device rest (S strand)
  end.

Fixpoint sweepJobs (f : @Frame C) (deviceStrands : list (list Z))
  (device : nat) : list (nat * list C) :=
  match deviceStrands with
  | [] => []
  | strands :: rest =>
      strandJobs f device strands 0 ++ sweepJobs f rest (S device)
  end.

Fixpoint strandFailures (f : @Frame C) (device : nat) (strands : list Z)
  (strand : nat) : list string :=
  match strands with
  | [] => []
  | strandLen :: rest =>
      (if decide (strandLen = 0) then []
       else match GetStrandData f device strand with
            | inl errGo => [errGo]
            | inr _ => []
            end)
        ++ strandFailures f device rest (S strand)
  end.

Fixpoint sweepFailures (f : @Frame C) (deviceStrands : list (list Z))
  (device : nat) : list string :=
  match deviceStrands with
  | [] => []
  | strands :: rest =>
      strandFailures f device strands 0 ++ sweepFailures f rest (S device)
  end.

Definition frameJobs (f : @Frame C) : list (nat * list C) :=
  match GetStrands f with
  | inl _ => []
  | inr deviceStrands => sweepJobs f deviceStrands 0
  end.

Definition frameFailures (f : @Frame C) : list string :=
  match GetStrands f with
  | inl errGo => [errGo]
  | inr deviceStrands => sweepFailures f deviceStrands 0
  end.

(** The error [RunLoop] hands to [sendErr] for a Go error. *)
Definition dataError (errGo : string) : errors.Error :=
  errors.With (errors.Wrap errGo) "stack" (stack.Trace "FadeCandy.RunLoop").

Definition fits (job : nat * list C) : Prop :=
  Z.of_nat (List.length job.2) * 3 < 65536.

Definition jobMessage (job : nat * list C) : opc.Message :=
  deviceMessage job.2.

(** The line printed for a strand whose message was refused. *)
Definition strip (job : nat * list C) : string :=
  default "" (fst <$> strandMessage job.1 job.2).

(** [Send] applied to the messages in turn. *)
Fixpoint sendAll (fc : FadeCandy) (msgs : list opc.Message)
  : list (option errors.Error) * FadeCandy :=
  match msgs with
  | [] => ([], fc)
  | m :: rest =>
      let '(err, fc') := Send fc (Some m) in
      let '(errs, fc'') := sendAll fc' rest in
      (err :: errs, fc'')
  end.

(** The lines printed for jobs with these send results: one for each
    refused message. *)
Fixpoint printed (jobs : list (nat * list C))
  (results : list (option errors.Error)) : list Output :=
  match jobs, results with
  | job :: jobs', Some _ :: results' =>
      Stdout (strip job) :: printed jobs' results'
  | _ :: jobs', None :: results' => printed jobs' results'
  | _, _ => []
  end.

(** A part of the sweep that did for [jobs] and [failures] what the sweep
    is expected to do. *)
Definition observed (st st' : @LoopState Status)
  (jobs : list (nat * list C)) (failures : list string) : Prop :=
  exists new,
    effects st' = effects st ++ new
    /\ sentMessages new = jobMessage <$> jobs
    /\ sendResults new = (sendAll (conn st) (jobMessage <$> jobs)).1
    /\ conn st' = (sendAll (conn st) (jobMessage <$> jobs)).2
    /\ reports new = dataError <$> failures
    /\ outputs new
       = printed jobs (sendAll (conn st) (jobMessage <$> jobs)).1.

(** The render errors a sequence of ticks has to report: those of the
    ticks whose digest changed and whose rendering failed. *)
Fixpoint renderFailures (Md5 : option Status -> list Z) (last : list Z)
  (ticks : list (@Tick Status)) : list errors.Error :=
  match ticks with
  | [] => []
  | t :: rest =>
      if decide (Md5 (cached t) = last) then renderFailures Md5 last rest
      else match test8LED t with
           | Some err => err :: renderFailures Md5 (Md5 (cached t)) rest
           | None => renderFailures Md5 (Md5 (cached t)) rest
           end
  end.

(** How a report of [run] shows an error: sent on the channel with the
    endpoint added, or its text on the standard error stream. *)
Definition shows (server : string) (o : Output) (err : errors.Error) : Prop :=
  o = ChanSend (errors.With err "url" server)
  \/ o = Stderr (errors.ErrorString err).

(** What holds of the three goroutines in every state they can reach. *)
Definition consistent (σ : @System Status) : Prop :=
  (errorC_closed σ = true
   <-> (exists err, streamPc σ = StreamExited err)
       \/ streamPc σ = StreamPanicked)
  /\ (statusC_closed σ = true <-> subPc σ = SubExited)
  /\ (runPc σ = RunPanicked -> errorC_closed σ = true)
  /\ (sendsOnClosed σ <> 0%nat -> runPc σ = RunPanicked)
  /\ (subPc σ = SubExited -> quitC_closed σ = true)
  /\ (runPc σ = RunExited -> quitC_closed σ = true)
  /\ (streamPc σ = StreamExited None -> quitC_closed σ = true).

End Observations.

(** A frame of two devices for the examples of sweeps: the first device
    has a strand of length zero and a strand without buffer. *)

Module Sweeps.

Definition frame : @Frame color.rgba :=
  {| GetStrands := inr [[2; 0; 2]; [2]];
     GetStrandData := fun device strand =>
       if decide (device = 0%nat /\ strand = 2%nat)
       then inl "no such strand"
       else inr Example.pixels |}.

Definition unmapped : @Frame color.rgba :=
  {| GetStrands := inl "no topology";
     GetStrandData := fun _ _ => inr Example.pixels |}.

End Sweeps.

(** The statuses of the home messages among the messages received, and
    the cache they leave: that of the last one, if there is one. *)

Section LastHome.

Context {Status : Type}.

Definition homeStatus (msg : option (@PortalMsg Status))
  : option (option Status) :=
  match msg with
  | Some m => if Home m then Some (PortalMsg_Status m) else None
  | None => None
  end.

Definition cacheAfter (st : @LastStatus Status)
  (msgs : list (option (@PortalMsg Status))) : @LastStatus Status :=
  match last (omap homeStatus msgs) with
  | Some s => {| status := s |}
  | None => st
  end.

End LastHome.

(** * cmd/mawt: the command (package [main], file mawt.go)

    [strings.Split] is modelled for a separator of one byte, which is how
    the command calls it; [url.Parse] is a parameter, and of a [url.URL]
    only the field [Path] is looked at, the other fields being carried
    along in [other]. *)

Module gostrings.

Fixpoint Split (s : string) (sep : Ascii.ascii) : list string :=
  match s with
  | EmptyString => [EmptyString]
  | String c rest =>
      if decide (c = sep) then EmptyString :: Split rest sep
      else match Split rest sep with
           | [] => [String c EmptyString]
           | field :: fields => String c field :: fields
           end
  end.

Fixpoint Join (elems : list string) (sep : string) : string :=
  match elems with
  | [] => EmptyString
  | [e] => e
  | e :: rest => e +:+ sep +:+ Join rest sep
  end.

Fixpoint Count (s : string) (sep : Ascii.ascii) : nat :=
  match s with
  | EmptyString => 0
  | String c rest => (if decide (c = sep) then 1 else 0) + Count rest sep
  end.

End gostrings.

Module cmd.

Definition comma : Ascii.ascii := Ascii.ascii_of_nat 44.

Section Command.

Context {Rest : Type}.

Record URL := mkURL { Path : string; other : Rest }.

(** [url.Parse]: the text of the error, or the URL. *)
Variable Parse : string -> string + URL.

(** What the command starts, logs and closes. *)
Inductive Action :=
| SetLevelDebug                        (* logger.SetLevel(logxi.LevelDebug) *)
| LogDebug (text : string)
| LogWarn (text : string)
| LogError (text : string)
| FmtPrint (text : string)             (* fmt.Print *)
| GoListenAndServe (addr : string)
| GoSignalLoop
| Notify                               (* signal.Notify(stopC, ...) *)
| GoRunTUI
| GatewayStart (server : string) (terminal : bool)
| GoTecthulu (u : URL) (home : bool)   (* NewTecthulu(u, home, ..); go Run *)
| GoRunMonitoring
| Cancel                               (* cancel() of the context *)
| CloseQuitC
| CloseDoneC
| Sleep (d : time.Duration)
| OsExit (code : Z).                   (* os.Exit *)

(** [initOPC] starts a goroutine that does nothing and returns nil. *)
Definition initOPC : option errors.Error := None.

Definition noPathWarning : string :=
  "URL supplied without a path component, default one supplied".

(** Lines 190-200: the body of the loop over the portals. *)
Definition portalStep (i : nat) (portal : string)
  (acc : list errors.Error * list Action) : list errors.Error * list Action :=
  let '(errs, acts) := acc in
  match Parse portal with
  | inl errGo =>
      (errs ++ [errors.With (errors.With (errors.Wrap errGo) "url" portal)
                  "stack" (stack.Trace "startServer")],
       acts)
  | inr u =>
      if decide (String.length (Path u) <= 1)%nat
      then (errs,
            acts ++ [LogWarn noPathWarning;
                     GoTecthulu {| Path := "/module/status/json";
                                   other := other u |}
                       (bool_decide (i = 0%nat))])
      else (errs, acts ++ [GoTecthulu u (bool_decide (i = 0%nat))])
  end.

Fixpoint portalsLoop (portals : list string) (i : nat)
  (acc : list errors.Error * list Action) : list errors.Error * list Action :=
  match portals with
  | [] => acc
  | portal :: rest => portalsLoop rest (S i) (portalStep i portal acc)
  end.

(** [fcserver], [terminal] and [tecthulhus] are the values of the flags. *)
Definition startServer (fcserver : string) (terminal : bool)
  (tecthulhus : string) : list errors.Error * list Action :=
  let errs := match initOPC with Some err => [err] | None => [] end in
  let acts := [GoRunTUI; GatewayStart fcserver terminal] in
  let portals := gostrings.Split tecthulhus comma in
  let '(errs, acts) := portalsLoop portals 0 (errs, acts) in
  (errs, acts ++ [GoRunMonitoring]).

Definition EntryPoint (fcserver : string) (terminal : bool)
  (tecthulhus : string) : list errors.Error * list Action :=
  let '(errs, acts) := startServer fcserver terminal tecthulhus in
  (errs,
   [GoListenAndServe "0.0.0.0:6060"; GoSignalLoop; Notify]
     ++ acts ++ [CloseDoneC]).

(** The goroutine of [EntryPoint] that watches the channels: what its
    select received. *)
Inductive Received :=
| FromErrorC (err : option errors.Error)
| FromMsgC (msg : string)
| FromQuitC
| FromStopC.

Fixpoint signalLoop (evs : list Received) : list Action * Exit :=
  match evs with
  | [] => ([], Blocked)
  | FromErrorC (Some err) :: rest =>
      let '(acts, exit) := signalLoop rest in
      (LogWarn (errors.ErrorString err) :: acts, exit)
  | FromErrorC None :: rest => signalLoop rest
  | FromMsgC msg :: rest =>
      let '(acts, exit) := signalLoop rest in
      if decide (0 < String.length msg)%nat then (FmtPrint msg :: acts, exit)
      else (acts, exit)
  | FromQuitC :: _ => ([Cancel], Returned)
  | FromStopC :: _ => ([LogWarn "CTRL-C Seen"; CloseQuitC; Cancel], Returned)
  end.

(** [Main]: [banner] is the line logged at debug level and [quit] says
    whether [quitC] gets closed while [Main] waits for it.  The result is
    what was done and whether the function returned (or the process
    exited) or is left waiting. *)
Definition Main (verbose : bool) (banner : string) (fcserver : string)
  (terminal : bool) (tecthulhus : string) (quit : bool)
  : list Action * Exit :=
  let '(errs, acts) := EntryPoint fcserver terminal tecthulhus in
  let start :=
    (if verbose then [SetLevelDebug] else []) ++ [LogDebug banner] in
  match errs with
  | [] =>
      if quit then (start ++ acts ++ [Sleep time.Second], Returned)
      else (start ++ acts, Blocked)
  | _ :: _ =>
      (start ++ acts ++ (LogError ∘ errors.ErrorString <$> errs)
         ++ [OsExit (-1)],
       Returned)
  end.

(** [exclusive]: [listen] is the outcome of [net.Listen("unix", name)]. *)
Definition exclusive (name : string) (listen : string -> option string)
  : option errors.Error :=
  let sockName := "@/tmp/" +:+ name in
  match listen sockName with
  | Some errGo =>
      Some (errors.With (errors.Wrap errGo) "stack" (stack.Trace "exclusive"))
  | None => None
  end.

Definition main (listen : string -> option string) (verbose : bool)
  (banner : string) (fcserver : string) (terminal : bool)
  (tecthulhus : string) (quit : bool) : list Action * Exit :=
  match exclusive "mawt" listen with
  | Some err =>
      ([LogError ("An instance of this process is already running "
                    +:+ errors.ErrorString err);
        OsExit (-1)], Returned)
  | None => Main verbose banner fcserver terminal tecthulhus quit
  end.

(** The tecthulhus started, the texts logged as errors and as warnings. *)
Fixpoint tecthulhusOf (acts : list Action) : list (URL * bool) :=
  match acts with
  | [] => []
  | GoTecthulu u home :: rest => (u, home) :: tecthulhusOf rest
  | _ :: rest => tecthulhusOf rest
  end.

(** What the loop over the portals is expected to start for a portal. *)
Definition started (i : nat) (portal : string) : option (URL * bool) :=
  match Parse portal with
  | inl _ => None
  | inr u =>
      Some (if decide (String.length (Path u) <= 1)%nat
            then {| Path := "/module/status/json"; other := other u |}
            else u,
            bool_decide (i = 0%nat))
  end.

Definition refused (portal : string) : option errors.Error :=
  match Parse portal with
  | inl errGo =>
      Some (errors.With (errors.With (errors.Wrap errGo) "url" portal)
              "stack" (stack.Trace "startServer"))
  | inr _ => None
  end.

(** What the watching goroutine logs or prints for what it received:
    nothing for a nil error or an empty message. *)
Definition shown (ev : Received) : option Action :=
  match ev with
  | FromErrorC (Some err) => Some (LogWarn (errors.ErrorString err))
  | FromMsgC msg =>
      if decide (0 < String.length msg)%nat then Some (FmtPrint msg)
      else None
  | _ => None
  end.

End Command.

End cmd.

(** A stand-in for [url.Parse] in the examples: the path starts at the
    first "/" after the host, and a text with a space is refused. *)

Module Urls.

Fixpoint hasSpace (s : string) : bool :=
  match s with
  | EmptyString => false
  | String c rest => if decide (c = Ascii.ascii_of_nat 32) then true
                     else hasSpace rest
  end.

Fixpoint pathOf (s : string) : string :=
  match s with
  | EmptyString => EmptyString
  | String c rest => if decide (c = Ascii.ascii_of_nat 47) then s
                     else pathOf rest
  end.

(** The path of "scheme://host/path" is "/path". *)
Definition pathAfterHost (s : string) : string :=
  match pathOf s with
  | String _ (String c rest) =>
      if decide (c = Ascii.ascii_of_nat 47) then pathOf rest else pathOf s
  | p => p
  end.

Definition Parse (s : string) : string + @cmd.URL string :=
  if hasSpace s then inl "invalid character in host name"
  else inr {| cmd.Path := pathAfterHost s; cmd.other := s |}.

End Urls.

(** * Properties *)

(** ** Integer conversions and colors *)

Lemma uint8_range x : 0 <= GoInt.uint8 x < 256.
Proof.
  unfold GoInt.uint8. change (2 ^ 8) with 256. apply Z.mod_pos_bound. lia.
Qed.

Lemma uint16_small x : 0 <= x < 65536 -> GoInt.uint16 x = x.
Proof.
  intros Hx. unfold GoInt.uint16. change (2 ^ 16) with 65536.
  apply Z.mod_small. lia.
Qed.

Lemma uint16_range x : 0 <= GoInt.uint16 x < 65536.
Proof.
  unfold GoInt.uint16. change (2 ^ 16) with 65536.
  apply Z.mod_pos_bound. lia.
Qed.

(** A channel below 256 and its copy shifted by eight bits share no bit. *)
Lemma widen_eq c : 0 <= c < 256 -> color.widen c = 257 * c.
Proof.
  intros Hc. unfold color.widen.
  rewrite <- Z.add_nocarry_lor.
  - rewrite Z.shiftl_mul_pow2 by lia. change (2 ^ 8) with 256. lia.
  - apply Z.bits_inj'. intros n Hn.
    rewrite Z.land_spec, Z.bits_0.
    destruct (Z.ltb_spec n 8) as [Hlt|Hge].
    + rewrite Z.shiftl_spec_low by lia. apply andb_false_r.
    + replace (Z.testbit c n) with false; [reflexivity|].
      symmetry. destruct (Z.eq_dec c 0) as [->|Hnz]; [apply Z.bits_0|].
      apply Z.bits_above_log2; [lia|].
      apply Z.log2_lt_pow2; [lia|].
      apply Z.lt_le_trans with (2 ^ 8); [change (2 ^ 8) with 256; lia|].
      apply Z.pow_le_mono_r; lia.
Qed.

Lemma uint8_widen c : 0 <= c < 256 -> GoInt.uint8 (color.widen c) = c.
Proof.
  intros Hc. rewrite widen_eq by assumption. unfold GoInt.uint8.
  change (2 ^ 8) with 256.
  replace (257 * c) with (c + c * 256) by lia.
  rewrite Z.mod_add by lia. apply Z.mod_small. lia.
Qed.

Lemma widen_zero c : color.widen c = 0 <-> c = 0.
Proof.
  unfold color.widen. rewrite Z.lor_eq_0_iff. split.
  - intros [Hc _]. exact Hc.
  - intros ->. split; [reflexivity | apply Z.shiftl_0_l].
Qed.

(** ** Building the message of a strand *)

Lemma store_middle (d1 d2 : list Z) (x v : Z) :
  opc.store (d1 ++ x :: d2) (List.length d1) v = Some (d1 ++ v :: d2).
Proof.
  unfold opc.store. rewrite decide_True.
  - f_equal. replace (List.length d1) with (List.length d1 + 0)%nat by lia.
    by rewrite insert_app_r.
  - rewrite length_app. simpl. lia.
Qed.

Lemma store_length (d d' : list Z) i v :
  opc.store d i v = Some d' -> List.length d' = List.length d.
Proof.
  unfold opc.store. case_decide; [|done].
  intros [= <-]. apply length_insert.
Qed.

Lemma SetPixelColor_middle m pixel r g b d1 x y z d2 :
  opc.data m = d1 ++ x :: y :: z :: d2 ->
  List.length d1 = (3 * pixel)%nat ->
  opc.SetPixelColor m pixel r g b
  = Some (opc.withData m (d1 ++ r :: g :: b :: d2)).
Proof.
  intros Hd Hlen. unfold opc.SetPixelColor. rewrite Hd, <- Hlen.
  rewrite store_middle. simpl.
  replace (List.length d1 + 1)%nat with (List.length (d1 ++ [r])).
  2:{ rewrite length_app. reflexivity. }
  replace (d1 ++ r :: y :: z :: d2) with ((d1 ++ [r]) ++ y :: z :: d2).
  2:{ by rewrite <- app_assoc. }
  rewrite store_middle. simpl.
  replace (List.length d1 + 2)%nat with (List.length (d1 ++ [r; g])).
  2:{ rewrite length_app. reflexivity. }
  replace ((d1 ++ [r]) ++ g :: z :: d2) with ((d1 ++ [r; g]) ++ z :: d2).
  2:{ by rewrite <- !app_assoc. }
  rewrite store_middle. simpl.
  unfold opc.withData. do 2 f_equal. by rewrite <- app_assoc.
Qed.

Lemma SetPixelColor_length m pixel r g b m' :
  opc.SetPixelColor m pixel r g b = Some m' ->
  List.length (opc.data m') = List.length (opc.data m)
  /\ (3 * pixel + 2 < List.length (opc.data m))%nat.
Proof.
  unfold opc.SetPixelColor. intros Hset.
  apply bind_Some in Hset as (e1 & H1 & Hset).
  apply bind_Some in Hset as (e2 & H2 & Hset).
  apply bind_Some in Hset as (e3 & H3 & Hset).
  injection Hset as <-. simpl.
  pose proof (store_length _ _ _ _ H1) as L1.
  pose proof (store_length _ _ _ _ H2) as L2.
  pose proof (store_length _ _ _ _ H3) as L3.
  split; [lia|].
  unfold opc.store in H3. case_decide; [lia | done].
Qed.

Section StrandMessage.

Context {Status : Type} {C : Type} `{color.Color C}.

Lemma wire_cons (rgba : C) (rest : list C) :
  wire (rgba :: rest)
  = (let '(r, g, b) := pixel rgba in
     [GoInt.uint8 r; GoInt.uint8 g; GoInt.uint8 b]) ++ wire rest.
Proof. reflexivity. Qed.

Lemma wire_length (strandData : list C) :
  List.length (wire strandData) = (3 * List.length strandData)%nat.
Proof.
  induction strandData as [|rgba rest IH]; [reflexivity|].
  rewrite wire_cons, length_app, IH.
  destruct (pixel rgba) as [[r g] b]. simpl. lia.
Qed.

Lemma wire_bytes (strandData : list C) :
  Forall (fun b => 0 <= b < 256) (wire strandData).
Proof.
  induction strandData as [|rgba rest IH]; [constructor|].
  rewrite wire_cons. destruct (pixel rgba) as [[r g] b].
  repeat (constructor; [apply uint8_range|]). exact IH.
Qed.

(** Each element is written as its own triple, at three times its index. *)
Lemma wire_lookup (strandData : list C) i rgba :
  strandData !! i = Some rgba ->
  wire strandData !! (3 * i)%nat = Some (GoInt.uint8 (pixel rgba).1.1)
  /\ wire strandData !! (3 * i + 1)%nat = Some (GoInt.uint8 (pixel rgba).1.2)
  /\ wire strandData !! (3 * i + 2)%nat = Some (GoInt.uint8 (pixel rgba).2).
Proof.
  revert i. induction strandData as [|c rest IH]; intros i Hi; [done|].
  rewrite wire_cons. destruct i as [|i].
  - simpl in Hi. injection Hi as ->.
    destruct (pixel rgba) as [[r g] b]. simpl. done.
  - simpl in Hi. specialize (IH i Hi).
    destruct (pixel c) as [[r' g'] b'].
    replace (3 * S i)%nat with (S (S (S (3 * i)))) by lia.
    exact IH.
Qed.

Lemma fill_middle (strandData : list C) :
  forall i strip m d1 zs d2,
    opc.data m = d1 ++ zs ++ d2 ->
    List.length d1 = (3 * i)%nat ->
    List.length zs = (3 * List.length strandData)%nat ->
    exists strip',
      fill strandData i strip m
      = Some (strip', opc.withData m (d1 ++ wire strandData ++ d2)).
Proof.
  induction strandData as [|rgba rest IH]; intros i strip m d1 zs d2 Hd L1 Lz.
  - destruct zs; [|done]. exists strip. simpl in *.
    rewrite <- Hd. by destruct m.
  - destruct zs as [|x [|y [|z zs]]]; simpl in Lz; try lia.
    rewrite wire_cons. cbn [fill].
    destruct (pixel rgba) as [[r g] b].
    erewrite SetPixelColor_middle; [|exact Hd|exact L1].
    cbn [mbind option_bind].
    match goal with
    | |- exists _, fill _ _ ?s ?m' = _ =>
        destruct (IH (S i) s m'
                    (d1 ++ [GoInt.uint8 r; GoInt.uint8 g; GoInt.uint8 b])
                    zs d2) as [strip' Hfill]
    end.
    + simpl. rewrite <- app_assoc. reflexivity.
    + rewrite length_app. simpl. lia.
    + lia.
    + exists strip'. rewrite Hfill. unfold opc.withData. simpl.
      do 3 f_equal. rewrite <- app_assoc. reflexivity.
Qed.

(** A buffer with too few bytes for the strand makes a store panic. *)
Lemma fill_fits (strandData : list C) :
  forall i strip m strip' m',
    fill strandData i strip m = Some (strip', m') ->
    strandData = []
    \/ (3 * (i + List.length strandData) <= List.length (opc.data m))%nat.
Proof.
  induction strandData as [|rgba rest IH]; intros i strip m strip' m' Hfill.
  - by left.
  - right. cbn [fill] in Hfill.
    destruct (pixel rgba) as [[r g] b].
    apply bind_Some in Hfill as (m1 & Hset & Hfill).
    apply SetPixelColor_length in Hset as [Hlen Hidx].
    apply IH in Hfill as [-> | Hfit]; simpl; simpl in *; lia.
Qed.

Lemma strandMessage_fits strandNum (strandData : list C) strip m :
  strandMessage strandNum strandData = Some (strip, m) ->
  Z.of_nat (List.length strandData) * 3 < 65536.
Proof.
  unfold strandMessage. intros Hfill.
  apply fill_fits in Hfill as [-> | Hfit]; [simpl; lia|].
  simpl in Hfit. rewrite length_replicate in Hfit.
  pose proof (uint16_range (Z.of_nat (List.length strandData) * 3)). lia.
Qed.

Lemma strandMessage_built strandNum (strandData : list C) :
  Z.of_nat (List.length strandData) * 3 < 65536 ->
  exists strip,
    strandMessage strandNum strandData
    = Some (strip,
            {| opc.channel := 0; opc.command := 0;
               opc.length := Z.of_nat (List.length strandData) * 3;
               opc.data := wire strandData |}).
Proof.
  intros Hn. unfold strandMessage.
  rewrite uint16_small by lia.
  match goal with
  | |- exists _, fill _ _ ?s ?m0 = _ =>
      destruct (fill_middle strandData 0 s m0 []
                  (replicate (3 * List.length strandData) 0) [])
        as [strip Hfill]
  end.
  - simpl. rewrite app_nil_r. f_equal. lia.
  - reflexivity.
  - apply length_replicate.
  - exists strip. rewrite Hfill. unfold opc.withData. simpl.
    by rewrite app_nil_r.
Qed.

Lemma strandMessage_spec strandNum (strandData : list C) strip m :
  strandMessage strandNum strandData = Some (strip, m) ->
  m = {| opc.channel := 0; opc.command := 0;
         opc.length := Z.of_nat (List.length strandData) * 3;
         opc.data := wire strandData |}.
Proof.
  intros Hm. pose proof (strandMessage_fits _ _ _ _ Hm) as Hn.
  destruct (strandMessage_built strandNum strandData Hn) as [strip' Hb].
  congruence.
Qed.

Lemma strandMessage_panics strandNum (strandData : list C) :
  65536 <= Z.of_nat (List.length strandData) * 3 ->
  strandMessage strandNum strandData = None.
Proof.
  intros Hn.
  destruct (strandMessage strandNum strandData) as [[strip m]|] eqn:Hm;
    [|reflexivity].
  apply strandMessage_fits in Hm. lia.
Qed.

End StrandMessage.

(** ** The streaming step *)

Section Streamer.

Context {Status : Type} {C : Type} `{color.Color C}.

Implicit Types (effs : list (@Effect Status)) (st : @LoopState Status).

Lemma sentMessages_app effs1 effs2 :
  sentMessages (effs1 ++ effs2) = sentMessages effs1 ++ sentMessages effs2.
Proof.
  induction effs1 as [|e effs1 IH]; [reflexivity|].
  destruct e; simpl; rewrite ?IH; reflexivity.
Qed.

Lemma sendOutcomes_app effs1 effs2 :
  sendOutcomes (effs1 ++ effs2) = sendOutcomes effs1 ++ sendOutcomes effs2.
Proof.
  induction effs1 as [|e effs1 IH]; [reflexivity|].
  destruct e as [| | | | | |m [err|]| | |]; simpl; rewrite ?IH; reflexivity.
Qed.

Lemma waits_app effs1 effs2 :
  waits (effs1 ++ effs2) = waits effs1 ++ waits effs2.
Proof.
  induction effs1 as [|e effs1 IH]; [reflexivity|].
  destruct e; simpl; rewrite ?IH; reflexivity.
Qed.

(** A strand of non-zero length whose buffer is available: its message is
    built and handed to [Send] once, and the pacing follows the result. *)
Lemma strandStep_sends (f : @Frame C) device strand strandLen strandNum st
    strandData :
  strandLen <> 0 ->
  GetStrandData f device strand = inr strandData ->
  Z.of_nat (List.length strandData) * 3 < 65536 ->
  exists st',
    strandStep f device strand strandLen strandNum st = Some st'
    /\ sentMessages (effects st')
       = sentMessages (effects st) ++ [deviceMessage strandData]
    /\ sendOutcomes (effects st')
       = sendOutcomes (effects st)
           ++ [bool_decide ((Send (conn st) (Some (deviceMessage strandData))).1
                            = None)]
    /\ conn st' = (Send (conn st) (Some (deviceMessage strandData))).2
    /\ refresh st'
       = match (Send (conn st) (Some (deviceMessage strandData))).1 with
         | Some _ => 5 * time.Second
         | None => 30 * time.Millisecond
         end.
Proof.
  intros Hlen Hdata Hn. unfold strandStep.
  rewrite decide_False by assumption. rewrite Hdata.
  destruct (strandMessage_built strandNum strandData Hn) as [strip Hm].
  rewrite Hm. cbn [mbind option_bind]. fold (deviceMessage strandData).
  destruct (Send (conn st) (Some (deviceMessage strandData)))
    as [[err|] fc'] eqn:Hsend; eexists; (split; [reflexivity|]); simpl;
    rewrite sentMessages_app, sendOutcomes_app; simpl; done.
Qed.

End Streamer.

(** ** Pacing *)

Section Pacing.

Context {Status : Type} {C : Type} `{color.Color C}.

Implicit Types (effs : list (@Effect Status)) (st : @LoopState Status).

Lemma pacing_app outs1 outs2 r :
  pacing (outs1 ++ outs2) r = pacing outs2 (pacing outs1 r).
Proof. unfold pacing. apply fold_left_app. Qed.

Lemma advances_refl st : advances st st.
Proof. exists []. by rewrite app_nil_r. Qed.

Lemma advances_trans st1 st2 st3 :
  advances st1 st2 -> advances st2 st3 -> advances st1 st3.
Proof.
  intros (n1 & E1 & W1 & R1) (n2 & E2 & W2 & R2).
  exists (n1 ++ n2). rewrite E2, E1, <- app_assoc.
  rewrite waits_app, W1, W2, sendOutcomes_app, pacing_app, <- R1, <- R2.
  done.
Qed.

Lemma advances_emit st new :
  waits new = [] -> sendOutcomes new = [] -> advances st (emit st new).
Proof. intros Hw Ho. exists new. simpl. by rewrite Hw, Ho. Qed.

Lemma strandStep_advances (f : @Frame C) device strand strandLen strandNum
    st st' :
  strandStep f device strand strandLen strandNum st = Some st' ->
  advances st st'.
Proof.
  unfold strandStep. case_decide.
  - intros [= <-]. apply advances_refl.
  - destruct (GetStrandData f device strand) as [errGo|strandData].
    + intros [= <-]. by apply advances_emit.
    + intros Hstep. apply bind_Some in Hstep as ([strip m] & _ & Hstep).
      destruct (Send (conn st) (Some m)) as [[err|] fc'];
        injection Hstep as <-; eexists; (split; [reflexivity|]); done.
Qed.

Lemma strandsLoop_advances (f : @Frame C) device strands :
  forall strand strandNum st st',
    strandsLoop f device strands strand strandNum st = Some st' ->
    advances st st'.
Proof.
  induction strands as [|strandLen rest IH]; intros strand strandNum st st'.
  - intros [= <-]. apply advances_refl.
  - cbn [strandsLoop]. intros Hloop.
    apply bind_Some in Hloop as (st1 & Hstep & Hloop).
    eapply advances_trans; [eapply strandStep_advances, Hstep|].
    eapply IH, Hloop.
Qed.

Lemma devicesLoop_advances (f : @Frame C) deviceStrands :
  forall device st st',
    devicesLoop f deviceStrands device st = Some st' -> advances st st'.
Proof.
  induction deviceStrands as [|strands rest IH]; intros device st st'.
  - intros [= <-]. apply advances_refl.
  - cbn [devicesLoop]. intros Hloop.
    apply bind_Some in Hloop as (st1 & Hstep & Hloop).
    eapply advances_trans; [eapply strandsLoop_advances, Hstep|].
    eapply IH, Hloop.
Qed.

Lemma waits_universes (universes : list string) :
  waits (Status := Status) (UpdateUniverse <$> universes) = []
  /\ sendOutcomes (Status := Status) (UpdateUniverse <$> universes) = [].
Proof. induction universes; [done|]. simpl. done. Qed.

Lemma iteration_advances universes (f : @Frame C) st st' :
  iteration universes f st = Some st' -> advances st st'.
Proof.
  unfold iteration. intros Hit.
  eapply advances_trans.
  { apply (advances_emit st (ProcessFrame :: (UpdateUniverse <$> universes)));
      simpl; apply waits_universes. }
  destruct (GetStrands f) as [errGo|deviceStrands].
  - injection Hit as <-. by apply advances_emit.
  - eapply devicesLoop_advances, Hit.
Qed.

(** The timer of an iteration is armed with the interval in force when the
    iteration starts. *)
Lemma streamLoop_waits universes (evs : list (Select (@Frame C))) :
  forall st, exists tail,
    waits (effects (streamLoop universes evs st).1)
    = waits (effects st)
        ++ match evs with [] => [] | _ :: _ => refresh st :: tail end.
Proof.
  induction evs as [|ev rest IH]; intros st.
  - exists []. simpl. by rewrite app_nil_r.
  - cbn [streamLoop]. destruct ev as [f|].
    + destruct (iteration universes f (emit st [Wait (refresh st)]))
        as [st1|] eqn:Hit.
      * destruct (iteration_advances _ _ _ _ Hit) as (new & E & W & _).
        destruct (IH st1) as [tail1 Htail].
        exists (match rest with [] => [] | _ :: _ => refresh st1 :: tail1 end).
        rewrite Htail, E, waits_app, W. simpl.
        rewrite waits_app, app_nil_r, <- app_assoc. done.
      * exists []. simpl. by rewrite waits_app.
    + exists []. simpl. by rewrite waits_app.
Qed.

End Pacing.

(** ** Examples of the streaming step *)

Example strandMessage_two_pixels :
  snd <$> strandMessage 1 Example.pixels
  = Some {| opc.channel := 0; opc.command := 0; opc.length := 6;
            opc.data := [0; 0; 0; 255; 10; 200] |}.
Proof. vm_compute. reflexivity. Qed.

Example strandMessage_strip :
  fst <$> strandMessage 7 [color.mkRGBA 1 2 3 4]
  = Some ("07 → " +:+ fmt.ESC +:+ "[38;2;1;2;3m█").
Proof. vm_compute. reflexivity. Qed.

Example strandStep_offline :
  effects <$> strandStep (Example.frame [2] Example.pixels) 0 0 2 1
                (Example.start {| oc := None |})
  = Some [Sent (deviceMessage Example.pixels)
            (Some (errors.With (errors.New "fadecandy server not online")
                     "stack" "FadeCandy.Send"));
          Out (Stdout ("01 → " +:+ fmt.ESC +:+ "[38;2;0;0;0m█"
                         +:+ fmt.ESC +:+ "[38;2;255;10;200m█"))].
Proof. vm_compute. reflexivity. Qed.

(** ** The color written for an element *)

(** Whatever the type of the elements: the bytes written for an element
    are zero when its [RGBA()] alpha is zero and otherwise the low eight
    bits of its [RGBA()] red, green and blue. *)
Lemma sent_pixels {Status : Type} {C : Type} `{color.Color C}
    (f : @Frame C) (device strand : nat) (strandLen : Z) (strandNum : nat)
    (st : @LoopState Status) (strandData : list C) :
  strandLen <> 0 ->
  GetStrandData f device strand = inr strandData ->
  Z.of_nat (List.length strandData) * 3 < 65536 ->
  exists st' m,
    strandStep f device strand strandLen strandNum st = Some st'
    /\ sentMessages (effects st') = sentMessages (effects st) ++ [m]
    /\ forall (i : nat) (rgba : C),
         strandData !! i = Some rgba ->
         let '(r, g, b, a) := color.RGBA rgba in
         (opc.data m !! (3 * i)%nat, opc.data m !! (3 * i + 1)%nat,
          opc.data m !! (3 * i + 2)%nat)
         = if decide (a = 0) then (Some 0, Some 0, Some 0)
           else (Some (GoInt.uint8 r), Some (GoInt.uint8 g),
                 Some (GoInt.uint8 b)).
Proof.
  intros Hlen Hdata Hn.
  destruct (strandStep_sends f device strand strandLen strandNum st
              strandData Hlen Hdata Hn) as (st' & Hstep & Hsent & _).
  exists st', (deviceMessage strandData).
  split; [exact Hstep|]. split; [exact Hsent|].
  intros i rgba Hi.
  destruct (wire_lookup strandData i rgba Hi) as (H1 & H2 & H3).
  unfold deviceMessage. cbn [opc.data]. rewrite H1, H2, H3. unfold pixel.
  destruct (color.RGBA rgba) as [[[r g] b] a].
  by destruct (decide (a = 0)).
Qed.

(** For the 8-bit colors of [color.RGBA], the alpha test and the two
    conversions amount to this. *)
Lemma pixel_rgba (rgba : color.rgba) :
  color.valid rgba ->
  (GoInt.uint8 (pixel rgba).1.1, GoInt.uint8 (pixel rgba).1.2,
   GoInt.uint8 (pixel rgba).2)
  = if decide (color.A rgba = 0) then (0, 0, 0)
    else (color.R rgba, color.G rgba, color.B rgba).
Proof.
  intros (HR & HG & HB & HA). unfold pixel, color.RGBA, color.rgba_Color.
  destruct (decide (color.A rgba = 0)) as [Ha|Ha].
  - rewrite decide_True by (by apply widen_zero). reflexivity.
  - rewrite decide_False by (by rewrite widen_zero). simpl.
    by rewrite !uint8_widen.
Qed.

(** Whatever the color values, a zero alpha writes black. *)
Lemma pixel_alpha_zero (rgba : color.rgba) :
  color.A rgba = 0 -> pixel rgba = (0, 0, 0).
Proof.
  intros Ha. unfold pixel, color.RGBA, color.rgba_Color.
  rewrite decide_True by (by apply widen_zero). reflexivity.
Qed.

(** C1.  In the streaming step of the frame streamer, the message built
    for a strand holds, for every element of the strand's buffer, the
    triple (0,0,0) when the element's alpha is zero, whatever its color
    values, and otherwise the element's red, green and blue values
    unchanged.  The elements are 8-bit RGBA colors. *)
Theorem C1_alpha_zero_forces_black {Status : Type}
    (f : @Frame color.rgba) (device strand : nat) (strandLen : Z)
    (strandNum : nat) (st : @LoopState Status)
    (strandData : list color.rgba) :
  strandLen <> 0 ->
  GetStrandData f device strand = inr strandData ->
  Z.of_nat (List.length strandData) * 3 < 65536 ->
  exists st' m,
    strandStep f device strand strandLen strandNum st = Some st'
    /\ sentMessages (effects st') = sentMessages (effects st) ++ [m]
    /\ forall (i : nat) (rgba : color.rgba),
         strandData !! i = Some rgba ->
         (color.A rgba = 0 ->
          opc.data m !! (3 * i)%nat = Some 0
          /\ opc.data m !! (3 * i + 1)%nat = Some 0
          /\ opc.data m !! (3 * i + 2)%nat = Some 0)
         /\ (color.A rgba <> 0 -> color.valid rgba ->
             opc.data m !! (3 * i)%nat = Some (color.R rgba)
             /\ opc.data m !! (3 * i + 1)%nat = Some (color.G rgba)
             /\ opc.data m !! (3 * i + 2)%nat = Some (color.B rgba)).
Proof.
  intros Hlen Hdata Hn.
  destruct (strandStep_sends f device strand strandLen strandNum st
              strandData Hlen Hdata Hn) as (st' & Hstep & Hsent & _).
  exists st', (deviceMessage strandData).
  split; [exact Hstep|]. split; [exact Hsent|].
  intros i rgba Hi. pose proof (wire_lookup strandData i rgba Hi) as Hw.
  simpl. split.
  - intros Ha. rewrite (pixel_alpha_zero rgba Ha) in Hw. exact Hw.
  - intros Ha Hvalid. pose proof (pixel_rgba rgba Hvalid) as Hp.
    rewrite decide_False in Hp by assumption.
    injection Hp as H1 H2 H3. rewrite H1, H2, H3 in Hw. exact Hw.
Qed.

Lemma C1_alpha_zero_forces_black_witness :
  let f := Example.frame [2] Example.pixels in
  let st := Example.start {| oc := Some (Example.failing 0) |} in
  (2 <> 0
   /\ GetStrandData f 0 0 = inr Example.pixels
   /\ Z.of_nat (List.length Example.pixels) * 3 < 65536)
  /\ exists st' m,
       strandStep f 0 0 2 1 st = Some st'
       /\ sentMessages (effects st') = [m]
       /\ opc.data m = [0; 0; 0; 255; 10; 200].
Proof.
  intros f st.
  assert (Hhyp : 2 <> 0
                 /\ GetStrandData f 0 0 = inr Example.pixels
                 /\ Z.of_nat (List.length Example.pixels) * 3 < 65536).
  { split; [lia|]. split; [reflexivity|]. simpl. lia. }
  split; [exact Hhyp|].
  destruct Hhyp as (H1 & H2 & H3).
  destruct (C1_alpha_zero_forces_black f 0 0 2 1 st Example.pixels H1 H2 H3)
    as (st' & m & Hstep & Hsent & Hpix).
  exists st', m. split; [exact Hstep|]. split; [exact Hsent|].
  vm_compute in Hstep. injection Hstep as <-.
  vm_compute in Hsent. injection Hsent as <-. reflexivity.
Defined.

(** ** The framing of a device message *)

(** The message sent for strand 1 of device 1 (the second strand of the
    second device) is addressed to channel 0, which is neither the strand's
    index, nor its number, nor the device's index. *)
Lemma C6_channel_is_not_the_strand_address :
  let f := Example.frame [1; 1] Example.pixels in
  let st := Example.start {| oc := Some (Example.failing 0) |} in
  exists st' m,
    strandStep f 1 1 1 2 st = Some st'
    /\ sentMessages (effects st') = [m]
    /\ opc.channel m = 0
    /\ opc.channel m <> Z.of_nat 1
    /\ opc.channel m <> Z.of_nat 2.
Proof.
  intros f st. eexists _, _. split; [vm_compute; reflexivity|].
  split; [reflexivity|]. simpl. repeat split; lia.
Qed.

(** C6, amended.  Every message the streaming step builds for a strand is
    addressed to channel 0, whatever the strand; for a buffer of [n]
    elements its length field is [uint16 (3 * n)], which is [3 * n] itself,
    and its data is exactly one (R, G, B) triple of bytes per element in
    element order.  A strand of length zero produces no message, and the step
    hands at most one message to [Send]. *)
Theorem C6_device_message_framing {Status : Type} {C : Type}
    `{color.Color C} (f : @Frame C) (device strand : nat) (strandLen : Z)
    (strandNum : nat) (st st' : @LoopState Status) :
  strandStep f device strand strandLen strandNum st = Some st' ->
  exists new,
    sentMessages (effects st') = sentMessages (effects st) ++ new
    /\ (strandLen = 0 -> new = [])
    /\ forall m, m ∈ new ->
         exists strandData,
           strandLen <> 0
           /\ GetStrandData f device strand = inr strandData
           /\ new = [m]
           /\ opc.channel m = 0
           /\ opc.length m
              = GoInt.uint16 (Z.of_nat (List.length strandData) * 3)
           /\ opc.length m = Z.of_nat (List.length strandData) * 3
           /\ opc.data m = wire strandData
           /\ List.length (opc.data m) = (3 * List.length strandData)%nat
           /\ Forall (fun b => 0 <= b < 256) (opc.data m).
Proof.
  unfold strandStep. case_decide as Hlen.
  - intros [= <-]. exists []. rewrite app_nil_r.
    split; [done|]. split; [done|]. intros m Hm. by apply elem_of_nil in Hm.
  - destruct (GetStrandData f device strand) as [errGo|strandData] eqn:Hdata.
    + intros [= <-]. exists []. simpl. rewrite sentMessages_app. simpl.
      split; [done|]. split; [done|]. intros m Hm. by apply elem_of_nil in Hm.
    + intros Hstep. apply bind_Some in Hstep as ([strip m] & Hm & Hstep).
      pose proof (strandMessage_fits _ _ _ _ Hm) as Hn.
      apply strandMessage_spec in Hm. subst m.
      fold (deviceMessage strandData) in Hstep.
      exists [deviceMessage strandData]. split.
      { destruct (Send (conn st) (Some (deviceMessage strandData)))
          as [[err|] fc']; injection Hstep as <-; simpl;
          rewrite sentMessages_app; done. }
      split; [done|]. intros m Hm. apply list_elem_of_singleton in Hm. subst m.
      exists strandData. simpl.
      rewrite uint16_small by lia. rewrite wire_length.
      repeat (split; [done|]). apply wire_bytes.
Qed.

Lemma C6_device_message_framing_witness :
  let f := Example.frame [2] Example.pixels in
  let st := Example.start {| oc := Some (Example.failing 0) |} in
  let st' := {| refresh := 30 * time.Millisecond;
                conn := (Send (conn st)
                           (Some (deviceMessage Example.pixels))).2;
                effects := [Sent (deviceMessage Example.pixels) None] |} in
  strandStep f 0 0 2 1 st = Some st'
  /\ exists new,
       sentMessages (effects st') = sentMessages (effects st) ++ new
       /\ forall m, m ∈ new -> opc.channel m = 0 /\ opc.length m = 6.
Proof.
  intros f st st'.
  assert (Hstep : strandStep f 0 0 2 1 st = Some st')
    by (vm_compute; reflexivity).
  split; [exact Hstep|].
  destruct (C6_device_message_framing f 0 0 2 1 st st' Hstep)
    as (new & Hsent & _ & Hall).
  exists new. split; [exact Hsent|].
  intros m Hm. destruct (Hall m Hm) as (d & _ & Hd & _ & Hch & _ & Hl & _).
  injection Hd as <-. split; [exact Hch | exact Hl].
Defined.

(** ** The pacing of the frame streamer *)

(** Five ticks of a streamer whose connection fails its first three
    writes: the timers armed and the results of the sends. *)
Example pacing_three_failures :
  let '(_, _, effs, _) :=
    RunLoop (Status := nat) {| oc := Some (Example.failing 3) |} None (inr [])
      (replicate 5 (Fired (Example.frame [2] Example.pixels))
         ++ [QuitClosed]) in
  waits effs
  = [30 * time.Millisecond; 5 * time.Second; 5 * time.Second;
     5 * time.Second; 30 * time.Millisecond; 30 * time.Millisecond]
  /\ sendOutcomes effs = [false; false; false; true; true].
Proof. vm_compute. split; reflexivity. Qed.

(** Once the sequencing engine and the topology are there, [RunLoop] is
    its loop, started at the fast interval, and the deferred close. *)
Lemma RunLoop_started {Status : Type} {C : Type} `{color.Color C}
    (fc : FadeCandy) (universes : list string)
    (evs : list (Select (@Frame C))) :
  RunLoop (Status := Status) fc None (inr universes) evs
  = let r := streamLoop universes evs
               {| refresh := 30 * time.Millisecond; conn := fc;
                  effects := [] |} in
    (None, conn r.1, effects r.1 ++ deferred r.2, r.2).
Proof.
  unfold RunLoop, startup. by destruct (streamLoop universes evs _).
Qed.

Lemma streamLoop_fired {Status : Type} {C : Type} `{color.Color C}
    universes (f : @Frame C) rest (st st1 : @LoopState Status) :
  iteration universes f (emit st [Wait (refresh st)]) = Some st1 ->
  streamLoop universes (Fired f :: rest) st = streamLoop universes rest st1.
Proof. intros Hit. cbn [streamLoop]. by rewrite Hit. Qed.

(** The timer after a sweep is armed with the interval the sweep left. *)
Lemma streamLoop_next_wait {Status : Type} {C : Type} `{color.Color C}
    universes (f : @Frame C) ev rest (st st1 : @LoopState Status) :
  iteration universes f (emit st [Wait (refresh st)]) = Some st1 ->
  exists tail,
    waits (effects (streamLoop universes (Fired f :: ev :: rest) st).1)
    = waits (effects st) ++ refresh st :: refresh st1 :: tail.
Proof.
  intros Hit. rewrite (streamLoop_fired _ _ _ _ _ Hit).
  destruct (streamLoop_waits universes (ev :: rest) st1) as [tail Htail].
  destruct (iteration_advances _ _ _ _ Hit) as (new & E & W & _).
  exists tail. rewrite Htail, E, waits_app, W. simpl.
  rewrite waits_app, app_nil_r, <- app_assoc. reflexivity.
Qed.

(** C2.  The interval between sends starts at 30 ms; right after a send
    that fails it is 5 s and right after a send that succeeds it is 30 ms;
    every iteration arms its timer with the interval in force when it
    starts, which is the one the sweep before it left, and a sweep leaves
    the interval its sends dictate.  With a connection whose first three
    sends fail and whose later sends succeed, the interval is 5 s after
    each of the three failures and 30 ms after every later send; the
    timers of five ticks are 30 ms, 5 s, 5 s, 5 s, 30 ms. *)
Theorem C2_pacing_adapts_and_recovers {Status : Type} {C : Type}
    `{color.Color C} (fc : FadeCandy) (universes : list string)
    (ev : Select (@Frame C)) (rest : list (Select (@Frame C)))
    (f : @Frame C) (device strand : nat) (strandLen : Z) (strandNum : nat)
    (st : @LoopState Status) (strandData : list C) :
  strandLen <> 0 ->
  GetStrandData f device strand = inr strandData ->
  Z.of_nat (List.length strandData) * 3 < 65536 ->
  (exists tail,
     waits (RunLoop (Status := Status) fc None (inr universes)
              (ev :: rest)).1.2
     = 30 * time.Millisecond :: tail)
  /\ (exists st',
        strandStep f device strand strandLen strandNum st = Some st'
        /\ refresh st'
           = match (Send (conn st) (Some (deviceMessage strandData))).1 with
             | Some _ => 5 * time.Second
             | None => 30 * time.Millisecond
             end)
  /\ (forall client,
        conn st = {| oc := Some client |} ->
        (forall n m, opc.transport client n m = None <-> (3 <= n)%nat) ->
        exists st',
          strandStep f device strand strandLen strandNum st = Some st'
          /\ opc.writes <$> oc (conn st') = Some (S (opc.writes client))
          /\ refresh st'
             = if decide (opc.writes client < 3)%nat then 5 * time.Second
               else 30 * time.Millisecond)
  /\ (exists tail,
        waits (effects (streamLoop universes (ev :: rest) st).1)
        = waits (effects st) ++ refresh st :: tail)
  /\ (forall st1,
        iteration universes f (emit st [Wait (refresh st)]) = Some st1 ->
        exists tail,
          waits (effects (streamLoop universes (Fired f :: ev :: rest) st).1)
          = waits (effects st) ++ refresh st :: refresh st1 :: tail)
  /\ (forall st1,
        iteration universes f st = Some st1 ->
        exists new,
          effects st1 = effects st ++ new
          /\ refresh st1 = pacing (sendOutcomes new) (refresh st))
  /\ waits (RunLoop (Status := Status) {| oc := Some (Example.failing 3) |}
              None (inr [])
              (replicate 5 (Fired (Example.frame [2] Example.pixels))
                 ++ [QuitClosed])).1.2
     = [30 * time.Millisecond; 5 * time.Second; 5 * time.Second;
        5 * time.Second; 30 * time.Millisecond; 30 * time.Millisecond].
Proof.
  intros Hlen Hdata Hn.
  destruct (strandStep_sends f device strand strandLen strandNum st
              strandData Hlen Hdata Hn)
    as (st' & Hstep & _ & _ & Hconn & Hr).
  split; [|split; [|split; [|split; [|split; [|split]]]]].
  - rewrite RunLoop_started. cbn [fst snd].
    destruct (streamLoop_waits universes (ev :: rest)
                {| refresh := 30 * time.Millisecond; conn := fc;
                   effects := @nil (@Effect Status) |}) as [tail Htail].
    rewrite waits_app, Htail. eexists. reflexivity.
  - exists st'. split; assumption.
  - intros client Hclient Hthree. exists st'. split; [exact Hstep|].
    rewrite Hr, Hconn, Hclient. unfold Send, opc.Send. simpl.
    destruct (opc.transport client (opc.writes client)
                (deviceMessage strandData)) as [errGo|] eqn:Ht; simpl.
    + split; [reflexivity|]. rewrite decide_True; [reflexivity|].
      destruct (decide (opc.writes client < 3)%nat) as [|Hge]; [assumption|].
      assert (Hok : opc.transport client (opc.writes client)
                      (deviceMessage strandData) = None)
        by (apply Hthree; lia).
      congruence.
    + split; [reflexivity|]. rewrite decide_False; [reflexivity|].
      apply Hthree in Ht. lia.
  - apply (streamLoop_waits universes (ev :: rest) st).
  - intros st1 Hit. by apply streamLoop_next_wait.
  - intros st1 Hit.
    destruct (iteration_advances _ _ _ _ Hit) as (new & E & _ & R).
    exists new. split; assumption.
  - vm_compute. reflexivity.
Qed.

Lemma C2_pacing_adapts_and_recovers_witness :
  let f := Example.frame [2] Example.pixels in
  let st := Example.start {| oc := Some (Example.failing 3) |} in
  (2 <> 0
   /\ GetStrandData f 0 0 = inr Example.pixels
   /\ Z.of_nat (List.length Example.pixels) * 3 < 65536)
  /\ exists st',
       strandStep f 0 0 2 1 st = Some st'
       /\ refresh st' = 5 * time.Second.
Proof.
  intros f st.
  assert (Hhyp : 2 <> 0
                 /\ GetStrandData f 0 0 = inr Example.pixels
                 /\ Z.of_nat (List.length Example.pixels) * 3 < 65536).
  { split; [lia|]. split; [reflexivity|]. simpl. lia. }
  split; [exact Hhyp|].
  destruct Hhyp as (H1 & H2 & H3).
  destruct (C2_pacing_adapts_and_recovers (Status := nat)
              {| oc := Some (Example.failing 3) |} [] QuitClosed []
              f 0 0 2 1 st Example.pixels H1 H2 H3)
    as (_ & (st' & Hstep & Hr) & _).
  exists st'. split; [exact Hstep|]. exact Hr.
Defined.

(** ** Startup of the frame streamer *)

(** C8.  When [GetSeqRunner] or [GetUniverses] returns an error, [RunLoop]
    returns that error having done nothing but close its error channel:
    whatever the selects would have chosen, no frame is advanced and no
    message is sent, and the connection is left as it was. *)
Theorem C8_startup_failure_is_fatal {Status : Type} {C : Type}
    `{color.Color C} (fc : FadeCandy) (err : errors.Error)
    (topology : errors.Error + list string)
    (evs : list (Select (@Frame C))) :
  RunLoop (Status := Status) fc (Some err) topology evs
  = (Some err, fc, [CloseErrorC], Returned)
  /\ RunLoop (Status := Status) fc None (inl err) evs
     = (Some err, fc, [CloseErrorC], Returned)
  /\ sentMessages (Status := Status) [CloseErrorC] = []
  /\ waits (Status := Status) [CloseErrorC] = []
  /\ (ProcessFrame : @Effect Status) ∉ [CloseErrorC : @Effect Status].
Proof.
  repeat split; try reflexivity.
  intros Hin. apply list_elem_of_singleton in Hin. discriminate.
Qed.

(** ** The subscriber *)

Section Subscriber.

Context {Status : Type}.

Implicit Types (st : @LastStatus Status) (m : @PortalMsg Status).

(** A received message that changes nothing can be dropped from the
    sequence of choices. *)
Lemma subscriber_skip (msg : option PortalMsg)
    (evs1 evs2 : list (Select (option PortalMsg))) :
  (forall st, subscriberRecv msg st = st) ->
  forall st,
    subscriber (evs1 ++ Fired msg :: evs2) st = subscriber (evs1 ++ evs2) st.
Proof.
  intros Hskip. induction evs1 as [|ev evs1 IH]; intros st.
  - simpl. by rewrite Hskip.
  - destruct ev as [msg'|]; simpl; [apply IH | reflexivity].
Qed.

(** C4.  A status message whose home flag is unset leaves the cached
    snapshot as it is, wherever it arrives in the sequence of messages, so
    also after an update from the home portal; a message whose home flag
    is set replaces the snapshot by (a copy of) its status. *)
Theorem C4_origin_filtering m st
    (evs1 evs2 : list (Select (option PortalMsg))) :
  Home m = false ->
  subscriberRecv (Some m) st = st
  /\ subscriber (evs1 ++ Fired (Some m) :: evs2) st
     = subscriber (evs1 ++ evs2) st
  /\ (forall m', Home m' = true ->
        subscriberRecv (Some m') st = {| status := PortalMsg_Status m' |}
        /\ subscriberRecv (Some m) (subscriberRecv (Some m') st)
           = {| status := PortalMsg_Status m' |}).
Proof.
  intros Hhome.
  assert (Hskip : forall st', subscriberRecv (Some m) st' = st').
  { intros st'. unfold subscriberRecv. by rewrite Hhome. }
  split; [apply Hskip|]. split; [by apply subscriber_skip|].
  intros m' Hm'. rewrite Hskip. unfold subscriberRecv, DeepCopy.
  by rewrite Hm'.
Qed.

(** C10.  A nil message is skipped: the cached snapshot is unchanged, the
    loop goes on with the messages that follow as if the nil message had
    not arrived, and after it the goroutine is back in its select, neither
    returned nor panicked. *)
Theorem C10_nil_message_is_skipped st
    (evs1 evs2 : list (Select (option (@PortalMsg Status)))) :
  subscriberRecv None st = st
  /\ subscriber (evs1 ++ Fired None :: evs2) st = subscriber (evs1 ++ evs2) st
  /\ subscriber [Fired None] st = (st, [], Blocked).
Proof.
  split; [reflexivity|]. split; [|reflexivity].
  by apply subscriber_skip.
Qed.

End Subscriber.

Lemma C4_origin_filtering_witness :
  let home := {| Home := true; PortalMsg_Status := Some 7%nat |} in
  let other := {| Home := false; PortalMsg_Status := Some 9%nat |} in
  Home other = false
  /\ subscriber [Fired (Some home); Fired (Some other); QuitClosed]
       {| status := None |}
     = ({| status := Some 7%nat |}, [CloseStatusC], Returned).
Proof.
  intros home other. split; [reflexivity|].
  destruct (C4_origin_filtering other {| status := None |}
              [Fired (Some home)] [QuitClosed] eq_refl) as (_ & Hskip & _).
  etrans; [exact Hskip | reflexivity].
Defined.

(** ** Reports that do not find the channel closed *)

Lemma selectSend_returns (ch : Chan) (timeout : time.Duration) :
  ch <> ChClosed ->
  exists chosen waited,
    selectSend ch timeout = Some (chosen, waited)
    /\ (chosen = CaseTimeout /\ waited = timeout
        \/ chosen = CaseSend /\ waited < timeout /\ ch = ChOpen (Some waited)).
Proof.
  intros Hopen. destruct ch as [|[t|]|]; [| | |done]; simpl.
  - eexists _, _. split; [reflexivity|]. by left.
  - case_decide; eexists _, _; (split; [reflexivity|]); [right|left]; done.
  - eexists _, _. split; [reflexivity|]. by left.
Qed.

Lemma reportInline_returns (errorC : Chan) (sent err : errors.Error) :
  errorC <> ChClosed ->
  exists outs waited,
    reportInline errorC sent err = Some (outs, waited)
    /\ waited <= 100 * time.Millisecond
    /\ (outs = [ChanSend sent] /\ errorC = ChOpen (Some waited)
        \/ outs = [Stderr (errors.ErrorString err)]
           /\ waited = 100 * time.Millisecond).
Proof.
  intros Hopen. unfold reportInline.
  destruct (selectSend_returns errorC (100 * time.Millisecond) Hopen)
    as (chosen & waited & -> & [[-> ->] | (-> & Hlt & ->)]); simpl.
  - eexists _, _. split; [reflexivity|]. split; [lia|]. by right.
  - eexists _, _. split; [reflexivity|]. split; [lia|]. by left.
Qed.

(** ** The render loop *)

Lemma Compare_eq (a b : list Z) : bytes.Compare a b = 0 <-> a = b.
Proof.
  revert b. induction a as [|x a IH]; intros [|y b]; simpl; try done.
  repeat case_decide; try (split; [done | intros [= ]; lia]).
  rewrite IH. split; [intros ->; f_equal; lia | by intros [= _ ->]].
Qed.

Section RenderLoop.

Context {Status : Type}.
Variable Md5 : option Status -> list Z.

Implicit Types (effs : list (@Effect Status)) (t : @Tick Status).

Lemma renders_app effs1 effs2 :
  renders (effs1 ++ effs2) = renders effs1 ++ renders effs2.
Proof.
  induction effs1 as [|e effs1 IH]; [reflexivity|].
  destruct e; simpl; rewrite ?IH; reflexivity.
Qed.

Lemma renders_outputs (outs : list Output) :
  renders (Status := Status) (Out <$> outs) = [].
Proof. induction outs; [done|]. simpl. done. Qed.

Lemma sample_unchanged cache rendered (last : list Z) :
  Md5 cache = last -> sample Md5 cache rendered last = (last, [], None).
Proof.
  intros Heq. unfold sample, DeepCopy. rewrite decide_False; [done|].
  intros Hne. apply Hne, Compare_eq. done.
Qed.

Lemma sample_changed cache rendered (last : list Z) :
  Md5 cache <> last ->
  sample Md5 cache rendered last = (Md5 cache, [Render cache], rendered).
Proof.
  intros Hne. unfold sample, DeepCopy. rewrite decide_True; [done|].
  rewrite Compare_eq. congruence.
Qed.

(** The loop refines the change detector: it renders the snapshots whose
    digest changed, once each, and nothing else. *)
Lemma renderLoop_renders server refresh (ticks : list Tick) :
  Forall (fun t => tickErrorC t <> ChClosed) ticks ->
  forall last,
    renders (renderLoop Md5 server refresh (Fired <$> ticks) last).1
    = changed Md5 last (cached <$> ticks)
    /\ (renderLoop Md5 server refresh (Fired <$> ticks) last).2 = Blocked.
Proof.
  induction 1 as [|t ticks Hopen _ IH]; intros last; [done|].
  cbn [fmap list_fmap renderLoop changed].
  destruct (decide (Md5 (cached t) = last)) as [Heq|Hne].
  - rewrite sample_unchanged by assumption. simpl. apply IH.
  - rewrite sample_changed by assumption.
    destruct (test8LED t) as [err|].
    + destruct (reportInline_returns (tickErrorC t)
                  (errors.With err "url" server) err Hopen)
        as (outs & waited & -> & _).
      simpl. rewrite renders_app, renders_outputs. simpl.
      split; [f_equal|]; apply IH.
    + simpl. split; [f_equal|]; apply IH.
Qed.

End RenderLoop.

Lemma run_renders {Status : Type} (Md5 : option Status -> list Z)
    (fc : FadeCandy) (fresh : opc.Client) (connectC : Chan) server refresh
    (evs : list (Select Tick)) :
  connectC <> ChClosed ->
  renders (run Md5 fc fresh connectC server refresh evs).2.1
  = renders (renderLoop Md5 server refresh evs []).1.
Proof.
  intros Hopen. unfold run.
  destruct (opc.Connect _ "tcp" server) as [errGo|]; [|reflexivity].
  match goal with
  | |- context [reportInline connectC ?e1 ?e2] =>
      destruct (reportInline_returns connectC e1 e2 Hopen)
        as (outs & waited & -> & _)
  end.
  simpl. rewrite renders_app, renders_app, renders_outputs. reflexivity.
Qed.

(** C3.  The render loop calls the rendering capability once for every
    tick whose snapshot's fingerprint differs from the fingerprint stored
    before it, and on no other tick; the fingerprint stored at first is
    empty.  Five ticks observing fingerprints A, A, B, B, A (A and B
    distinct) give three calls: for the first A, for the first B and for
    the last A.  Fingerprints are MD5 digests, of sixteen bytes, and the
    error channel is not found closed by a report. *)
Theorem C3_one_render_per_transition {Status : Type}
    (Md5 : option Status -> list Z) (fc : FadeCandy) (fresh : opc.Client)
    (connectC : Chan) (server : string) (refresh : time.Duration)
    (ticks : list Tick) (a1 a2 b1 b2 a3 : Tick) :
  (forall s, List.length (Md5 s) = 16%nat) ->
  connectC <> ChClosed ->
  Forall (fun t => tickErrorC t <> ChClosed) ticks ->
  Forall (fun t => tickErrorC t <> ChClosed) [a1; a2; b1; b2; a3] ->
  Md5 (cached a2) = Md5 (cached a1) ->
  Md5 (cached a3) = Md5 (cached a1) ->
  Md5 (cached b2) = Md5 (cached b1) ->
  Md5 (cached a1) <> Md5 (cached b1) ->
  renders (run Md5 fc fresh connectC server refresh (Fired <$> ticks)).2.1
  = changed Md5 [] (cached <$> ticks)
  /\ (forall last cache rendered,
        Md5 cache = last ->
        sample Md5 cache rendered last = (last, [], None))
  /\ (forall last cache rendered,
        Md5 cache <> last ->
        sample Md5 cache rendered last
        = (Md5 cache, [Render cache], rendered))
  /\ renders (run Md5 fc fresh connectC server refresh
                (Fired <$> [a1; a2; b1; b2; a3])).2.1
     = [cached a1; cached b1; cached a3].
Proof.
  intros Hsize HconnectC Hticks Hfive Ha2 Ha3 Hb2 Hab.
  split; [|split; [|split]].
  - rewrite run_renders by assumption. by apply renderLoop_renders.
  - intros last cache rendered. apply sample_unchanged.
  - intros last cache rendered. apply sample_changed.
  - rewrite run_renders by assumption.
    rewrite (proj1 (renderLoop_renders Md5 server refresh _ Hfive [])).
    assert (Hne : Md5 (cached a1) <> []).
    { intros Hnil. specialize (Hsize (cached a1)). by rewrite Hnil in Hsize. }
    cbn [fmap list_fmap changed].
    rewrite (decide_False (P := Md5 (cached a1) = [])) by assumption.
    rewrite (decide_True (P := Md5 (cached a2) = Md5 (cached a1)))
      by assumption.
    rewrite (decide_False (P := Md5 (cached b1) = Md5 (cached a1)))
      by congruence.
    rewrite (decide_True (P := Md5 (cached b2) = Md5 (cached b1)))
      by assumption.
    rewrite (decide_False (P := Md5 (cached a3) = Md5 (cached b1)))
      by congruence.
    reflexivity.
Qed.

Lemma C3_one_render_per_transition_witness :
  let tick (s : option nat) :=
    {| cached := s; test8LED := None; tickErrorC := ChOpen None |} in
  let five := [tick (Some 1%nat); tick (Some 1%nat); tick (Some 2%nat);
               tick (Some 2%nat); tick (Some 1%nat)] in
  ((forall s, List.length (Example.digest s) = 16%nat)
   /\ ChOpen None <> ChClosed
   /\ Forall (fun t => tickErrorC t <> ChClosed) five
   /\ Example.digest (Some 1%nat) <> Example.digest (Some 2%nat))
  /\ renders (run Example.digest {| oc := None |} (Example.failing 0)
                (ChOpen None) "127.0.0.1:7890" StartFadeCandy_refresh
                (Fired <$> five)).2.1
     = [Some 1%nat; Some 2%nat; Some 1%nat].
Proof.
  intros tick five.
  assert (Hsize : forall s, List.length (Example.digest s) = 16%nat)
    by (intros [n|]; reflexivity).
  assert (Hopen : ChOpen None <> ChClosed) by discriminate.
  assert (Hfive : Forall (fun t => tickErrorC t <> ChClosed) five)
    by (repeat constructor; discriminate).
  assert (Hab : Example.digest (Some 1%nat) <> Example.digest (Some 2%nat))
    by (vm_compute; discriminate).
  split; [repeat split; assumption|].
  exact (proj2 (proj2 (proj2
    (C3_one_render_per_transition Example.digest {| oc := None |}
       (Example.failing 0) (ChOpen None) "127.0.0.1:7890"
       StartFadeCandy_refresh five
       (tick (Some 1%nat)) (tick (Some 1%nat)) (tick (Some 2%nat))
       (tick (Some 2%nat)) (tick (Some 1%nat))
       Hsize Hopen Hfive Hfive eq_refl eq_refl eq_refl Hab)))).
Defined.

(** ** FadeCandy.Send *)

Lemma Send_context (fc : FadeCandy) (m : option opc.Message)
    (err : errors.Error) :
  (Send fc m).1 = Some err ->
  errors.context err = {["stack" := "FadeCandy.Send"]}.
Proof.
  unfold Send. destruct (oc fc) as [client|]; [|by intros [= <-]].
  destruct m as [msg|]; [|by intros [= <-]].
  destruct (opc.Send client msg) as [[e|] client']; [|done].
  by intros [= <-].
Qed.

(** A message that is not nil but holds no element is not refused: on a
    working connection it is sent and [Send] returns no error; and the
    error of a [Send] without connection does not name the endpoint. *)
Lemma C5_empty_message_is_sent :
  let empty := opc.SetLength (opc.NewMessage 0) 0 in
  opc.data empty = []
  /\ (Send {| oc := Some (Example.failing 0) |} (Some empty)).1 = None
  /\ (Send {| oc := None |} (Some empty)).1 = Some notOnline
  /\ errors.context notOnline !! "url" = None.
Proof. intros empty. repeat split. Qed.

(** C5, amended.  [Send] returns the error "fadecandy server not online"
    when there is no connection, without touching the transport, and that
    is the state a failed connection attempt of [run] leaves for good;
    with a connection it returns "invalid message" for a nil message, the
    wrapped transport error when the write fails, and no error when the
    write succeeds, also for a message without elements.  Every error it
    returns carries its call site under the key "stack", and nothing
    else: the endpoint is not part of it. *)
Theorem C5_send_errors {Status : Type} (Md5 : option Status -> list Z)
    (fc : FadeCandy) (client : opc.Client) (m : option opc.Message)
    (msg : opc.Message) (fresh : opc.Client) (connectC : Chan)
    (server : string) (refresh : time.Duration)
    (evs : list (Select (@Tick Status))) :
  Send {| oc := None |} m = (Some notOnline, {| oc := None |})
  /\ (oc fc = None ->
      opc.dial fresh server <> None ->
      (run Md5 fc fresh connectC server refresh evs).1 = {| oc := None |})
  /\ Send {| oc := Some client |} None
     = (Some invalidMessage, {| oc := Some client |})
  /\ (forall errGo,
        opc.transport client (opc.writes client) msg = Some errGo ->
        (Send {| oc := Some client |} (Some msg)).1
        = Some (transportFailure errGo))
  /\ (opc.transport client (opc.writes client) msg = None ->
      (Send {| oc := Some client |} (Some msg)).1 = None)
  /\ (forall err,
        (Send fc m).1 = Some err ->
        errors.context err !! "stack" = Some "FadeCandy.Send"
        /\ errors.context err !! "url" = None).
Proof.
  split; [reflexivity|]. split; [|split; [reflexivity|split; [|split]]].
  - intros Hoc Hdial. unfold run, opc.Connect. rewrite Hoc.
    destruct (opc.dial fresh server) as [errGo|]; [|done].
    by destruct (reportInline connectC _ _) as [[outs waited]|].
  - intros errGo Herr. unfold Send, opc.Send. simpl. by rewrite Herr.
  - intros Hok. unfold Send, opc.Send. simpl. by rewrite Hok.
  - intros err Herr. rewrite (Send_context fc m err Herr). done.
Qed.

Lemma C5_send_errors_witness :
  (oc {| oc := None |} = None
   /\ opc.dial Example.offline "127.0.0.1:7890" <> None)
  /\ (run Example.digest {| oc := None |} Example.offline (ChOpen None)
        "127.0.0.1:7890" StartFadeCandy_refresh []).1 = {| oc := None |}.
Proof.
  assert (Hhyp : oc {| oc := None |} = None
                 /\ opc.dial Example.offline "127.0.0.1:7890" <> None)
    by (split; [reflexivity | discriminate]).
  split; [exact Hhyp|].
  exact (proj1 (proj2
    (C5_send_errors Example.digest {| oc := None |} Example.offline None
       (opc.NewMessage 0) Example.offline (ChOpen None) "127.0.0.1:7890"
       StartFadeCandy_refresh [])) (proj1 Hhyp) (proj2 Hhyp)).
Defined.

(** ** sendErr *)




(** ** Shutdown *)

Section Shutdown.

Context {Status : Type} {C : Type} `{color.Color C}.
Variable Md5 : option Status -> list Z.
Variables (fc : FadeCandy) (server : string).

Implicit Types (σ : @System Status).

(** Once [quitC] is closed, a loop that is in its select and takes the
    quit case returns, and the subscriber and the streamer close the
    channel they close when they return. *)
Lemma quit_cases σ last universes st :
  quitC_closed σ = true ->
  (subPc σ = SubSelect ->
   exists σ', step (C := C) Md5 fc server SubQuit σ = Some σ'
              /\ subPc σ' = SubExited /\ statusC_closed σ' = true)
  /\ (runPc σ = RunSelect last ->
      exists σ', step (C := C) Md5 fc server RunQuit σ = Some σ'
                 /\ runPc σ' = RunExited
                 /\ errorC_closed σ' = errorC_closed σ)
  /\ (streamPc σ = StreamSelect universes st ->
      exists σ', step (C := C) Md5 fc server StreamQuit σ = Some σ'
                 /\ streamPc σ' = StreamExited None
                 /\ errorC_closed σ' = true).
Proof.
  intros Hquit. repeat split; intros Hpc; simpl; rewrite Hpc, Hquit;
    eexists; (split; [reflexivity|]); done.
Qed.

(** No loop takes its quit case before [quitC] is closed. *)
Lemma quit_needs_shutdown σ s :
  quitC_closed σ = false ->
  s = SubQuit \/ s = RunQuit \/ s = StreamQuit ->
  step (C := C) Md5 fc server s σ = None.
Proof.
  intros Hquit [-> | [-> | ->]]; simpl; rewrite Hquit.
  - by destruct (subPc σ).
  - by destruct (runPc σ).
  - by destruct (streamPc σ).
Qed.

End Shutdown.

(** C9.  After the shutdown signal the loops return and close their
    channels, but a send is still attempted on the error channel after it
    was closed.  [RunLoop] closes it when it returns, and [run], which
    sends on it too, may be between a failed [test8LED] and its report at
    that moment.  In this schedule the render loop's timer fires and
    rendering fails; then the shutdown signal is raised, the streamer and
    the subscriber take their quit case and close their channels; then the
    render loop reaches its report, whose send finds the error channel
    closed and panics. *)
Theorem C9_report_after_close_panics :
  let failure := errors.New "no LEDs" in
  let schedule : list (@Step nat color.rgba) :=
    [StreamStart None (inr []); RunTimer (Some failure); Shutdown;
     StreamQuit; SubQuit; RunReport (Some 0)] in
  exists σ,
    exec Example.digest {| oc := None |} "127.0.0.1:7890" schedule initial
    = Some σ
    /\ quitC_closed σ = true
    /\ subPc σ = SubExited /\ statusC_closed σ = true
    /\ streamPc σ = StreamExited None /\ errorC_closed σ = true
    /\ runPc σ = RunPanicked
    /\ sendsOnClosed σ = 1%nat.
Proof.
  intros failure schedule. eexists. split; [vm_compute; reflexivity|].
  repeat split.
Qed.

(** The same send panics without any shutdown when the streamer could not
    start: it has closed the error channel on its way out. *)
Example report_after_failed_startup :
  let schedule : list (@Step nat color.rgba) :=
    [StreamStart (Some (errors.New "no sequencer")) (inr []);
     RunTimer (Some (errors.New "no LEDs")); RunReport (Some 0)] in
  (fun σ => (runPc σ, errorC_closed σ, quitC_closed σ))
    <$> exec Example.digest {| oc := None |} "127.0.0.1:7890" schedule initial
  = Some (RunPanicked, true, false).
Proof. vm_compute. reflexivity. Qed.

(** ** What a sweep does *)

Section Sweep.

Context {Status : Type} {C : Type} `{color.Color C}.

Implicit Types (effs : list (@Effect Status)) (st : @LoopState Status)
  (jobs : list (nat * list C)) (f : @Frame C).

Lemma reports_app effs1 effs2 :
  reports (effs1 ++ effs2) = reports effs1 ++ reports effs2.
Proof.
  induction effs1 as [|e effs1 IH]; [reflexivity|].
  destruct e; simpl; rewrite ?IH; reflexivity.
Qed.

Lemma outputs_app effs1 effs2 :
  outputs (effs1 ++ effs2) = outputs effs1 ++ outputs effs2.
Proof.
  induction effs1 as [|e effs1 IH]; [reflexivity|].
  destruct e; simpl; rewrite ?IH; reflexivity.
Qed.

Lemma sendResults_app effs1 effs2 :
  sendResults (effs1 ++ effs2) = sendResults effs1 ++ sendResults effs2.
Proof.
  induction effs1 as [|e effs1 IH]; [reflexivity|].
  destruct e; simpl; rewrite ?IH; reflexivity.
Qed.

Lemma sendAll_app (fc : FadeCandy) (msgs1 msgs2 : list opc.Message) :
  sendAll fc (msgs1 ++ msgs2)
  = ((sendAll fc msgs1).1 ++ (sendAll (sendAll fc msgs1).2 msgs2).1,
     (sendAll (sendAll fc msgs1).2 msgs2).2).
Proof.
  revert fc. induction msgs1 as [|m msgs1 IH]; intros fc.
  - simpl. by destruct (sendAll fc msgs2).
  - simpl. destruct (Send fc (Some m)) as [err fc'].
    rewrite IH. destruct (sendAll fc' msgs1) as [errs fc''].
    reflexivity.
Qed.

Lemma sendAll_length (fc : FadeCandy) (msgs : list opc.Message) :
  List.length (sendAll fc msgs).1 = List.length msgs.
Proof.
  revert fc. induction msgs as [|m msgs IH]; intros fc; [reflexivity|].
  simpl. destruct (Send fc (Some m)) as [err fc'].
  specialize (IH fc'). destruct (sendAll fc' msgs) as [errs fc''].
  simpl in *. by rewrite IH.
Qed.

Lemma printed_app jobs1 jobs2 (results1 results2 : list (option errors.Error)) :
  List.length results1 = List.length jobs1 ->
  printed (jobs1 ++ jobs2) (results1 ++ results2)
  = printed jobs1 results1 ++ printed jobs2 results2.
Proof.
  revert results1. induction jobs1 as [|job jobs1 IH]; intros results1 Hlen.
  - by destruct results1.
  - destruct results1 as [|[err|] results1]; [done| |]; simpl in *.
    + f_equal. apply IH. lia.
    + apply IH. lia.
Qed.

Lemma observed_refl st : observed st st [] [].
Proof. exists []. by rewrite app_nil_r. Qed.

Lemma observed_trans st1 st2 st3 jobs1 jobs2 failures1 failures2 :
  observed st1 st2 jobs1 failures1 ->
  observed st2 st3 jobs2 failures2 ->
  observed st1 st3 (jobs1 ++ jobs2) (failures1 ++ failures2).
Proof.
  intros (n1 & E1 & M1 & R1 & C1 & P1 & O1)
         (n2 & E2 & M2 & R2 & C2 & P2 & O2).
  rewrite C1 in R2, C2, O2.
  exists (n1 ++ n2).
  rewrite sentMessages_app, sendResults_app, reports_app, outputs_app.
  rewrite !fmap_app, sendAll_app. cbn [fst snd].
  rewrite printed_app by (by rewrite sendAll_length, length_fmap).
  rewrite E2, E1, <- app_assoc, M1, M2, R1, R2, C2, P1, P2, O1, O2.
  done.
Qed.

Lemma strandStep_observed f device strand strandLen st :
  Forall fits (strandJobs f device [strandLen] strand) ->
  exists st',
    strandStep f device strand strandLen (S strand) st = Some st'
    /\ observed st st' (strandJobs f device [strandLen] strand)
         (strandFailures f device [strandLen] strand).
Proof.
  unfold strandStep. cbn [strandJobs strandFailures].
  rewrite !app_nil_r. intros Hfits.
  destruct (decide (strandLen = 0)) as [Hz|Hnz].
  - exists st. split; [done|]. apply observed_refl.
  - destruct (GetStrandData f device strand) as [errGo|strandData].
    + eexists. split; [reflexivity|].
      exists [Report (dataError errGo)]. simpl. done.
    + apply Forall_cons in Hfits as [Hfit _]. unfold fits in Hfit.
      cbn [snd] in Hfit.
      destruct (strandMessage_built (S strand) strandData Hfit)
        as [line Hm].
      rewrite Hm. cbn [mbind option_bind].
      fold (deviceMessage strandData).
      assert (Hstrip : strip (S strand, strandData) = line).
      { unfold strip. cbn [fst snd]. by rewrite Hm. }
      destruct (Send (conn st) (Some (deviceMessage strandData)))
        as [[err|] fc'] eqn:Hsend;
        (eexists; split; [reflexivity|]); eexists;
        (split; [reflexivity|]); unfold jobMessage; simpl;
        rewrite Hsend; simpl; rewrite ?Hstrip; done.
Qed.

Lemma strandJobs_cons f device strandLen rest strand :
  strandJobs f device (strandLen :: rest) strand
  = strandJobs f device [strandLen] strand
      ++ strandJobs f device rest (S strand).
Proof. cbn [strandJobs]. by rewrite app_nil_r. Qed.

Lemma strandFailures_cons f device strandLen rest strand :
  strandFailures f device (strandLen :: rest) strand
  = strandFailures f device [strandLen] strand
      ++ strandFailures f device rest (S strand).
Proof. cbn [strandFailures]. by rewrite app_nil_r. Qed.

Lemma strandsLoop_observed f device strands :
  forall strand st,
    Forall fits (strandJobs f device strands strand) ->
    exists st',
      strandsLoop f device strands strand strand st = Some st'
      /\ observed st st' (strandJobs f device strands strand)
           (strandFailures f device strands strand).
Proof.
  induction strands as [|strandLen rest IH]; intros strand st Hfits.
  - exists st. split; [reflexivity | apply observed_refl].
  - rewrite strandJobs_cons in Hfits. apply Forall_app in Hfits as [H1 H2].
    destruct (strandStep_observed f device strand strandLen st H1)
      as (st1 & Hstep & Hobs1).
    destruct (IH (S strand) st1 H2) as (st' & Hloop & Hobs2).
    exists st'. cbn [strandsLoop]. rewrite Hstep. cbn [mbind option_bind].
    split; [exact Hloop|].
    rewrite strandJobs_cons, strandFailures_cons.
    eapply observed_trans; eassumption.
Qed.

Lemma devicesLoop_observed f deviceStrands :
  forall device st,
    Forall fits (sweepJobs f deviceStrands device) ->
    exists st',
      devicesLoop f deviceStrands device st = Some st'
      /\ observed st st' (sweepJobs f deviceStrands device)
           (sweepFailures f deviceStrands device).
Proof.
  induction deviceStrands as [|strands rest IH]; intros device st Hfits.
  - exists st. split; [reflexivity | apply observed_refl].
  - cbn [sweepJobs] in Hfits. apply Forall_app in Hfits as [H1 H2].
    destruct (strandsLoop_observed f device strands 0%nat st H1)
      as (st1 & Hstep & Hobs1).
    destruct (IH (S device) st1 H2) as (st' & Hloop & Hobs2).
    exists st'. cbn [devicesLoop]. rewrite Hstep. cbn [mbind option_bind].
    split; [exact Hloop|].
    cbn [sweepJobs sweepFailures]. eapply observed_trans; eassumption.
Qed.

(** The frame is advanced and the universes are copied before the
    topology is read; then the sweep does what is expected of it. *)
Lemma iteration_observed universes f st :
  Forall fits (frameJobs f) ->
  exists st',
    iteration universes f st = Some st'
    /\ observed (emit st (ProcessFrame :: (UpdateUniverse <$> universes)))
         st' (frameJobs f) (frameFailures f).
Proof.
  unfold iteration, frameJobs, frameFailures. intros Hfits.
  destruct (GetStrands f) as [errGo|deviceStrands].
  - eexists. split; [reflexivity|].
    exists [Report (dataError errGo)]. simpl. done.
  - by apply devicesLoop_observed.
Qed.

Lemma quiet_prefix (universes : list string) :
  sentMessages (Status := Status)
    (ProcessFrame :: (UpdateUniverse <$> universes)) = []
  /\ reports (Status := Status)
       (ProcessFrame :: (UpdateUniverse <$> universes)) = []
  /\ outputs (Status := Status)
       (ProcessFrame :: (UpdateUniverse <$> universes)) = []
  /\ sendResults (Status := Status)
       (ProcessFrame :: (UpdateUniverse <$> universes)) = [].
Proof. simpl. induction universes; [done|]. simpl. done. Qed.

(** Membership in the jobs of a sweep, without the recursion. *)
Lemma strandJobs_spec f device strands (n : nat) (strandData : list C) :
  forall first,
    (n, strandData) ∈ strandJobs f device strands first
    <-> exists strand strandLen,
          strands !! strand = Some strandLen
          /\ strandLen <> 0
          /\ GetStrandData f device (first + strand) = inr strandData
          /\ n = S (first + strand).
Proof.
  induction strands as [|len rest IH]; intros first.
  - split; [intros Hin; by apply elem_of_nil in Hin|].
    intros (strand & l & Hl & _). done.
  - cbn [strandJobs]. rewrite elem_of_app, IH. split.
    + intros [Hhere | (strand & l & Hl & Hnz & Hd & Hn)].
      * destruct (decide (len = 0)); [by apply elem_of_nil in Hhere|].
        destruct (GetStrandData f device first) as [e|d] eqn:Hd;
          [by apply elem_of_nil in Hhere|].
        apply list_elem_of_singleton in Hhere. injection Hhere as -> ->.
        exists 0%nat, len. rewrite Nat.add_0_r. done.
      * exists (S strand), l.
        replace (first + S strand)%nat with (S first + strand)%nat by lia.
        done.
    + intros (strand & l & Hl & Hnz & Hd & Hn).
      destruct strand as [|strand].
      * left. simpl in Hl. injection Hl as ->.
        rewrite Nat.add_0_r in Hd, Hn.
        rewrite decide_False by assumption. rewrite Hd.
        apply list_elem_of_singleton. by rewrite Hn.
      * right. exists strand, l.
        replace (S first + strand)%nat with (first + S strand)%nat by lia.
        done.
Qed.

Lemma sweepJobs_spec f deviceStrands (n : nat) (strandData : list C) :
  forall first,
    (n, strandData) ∈ sweepJobs f deviceStrands first
    <-> exists device strands strand strandLen,
          deviceStrands !! device = Some strands
          /\ strands !! strand = Some strandLen
          /\ strandLen <> 0
          /\ GetStrandData f (first + device) strand = inr strandData
          /\ n = S strand.
Proof.
  induction deviceStrands as [|strands rest IH]; intros first.
  - split; [intros Hin; by apply elem_of_nil in Hin|].
    intros (device & l & _ & _ & Hl & _). done.
  - cbn [sweepJobs]. rewrite elem_of_app, IH, strandJobs_spec. split.
    + intros [(strand & l & Hl & Hnz & Hd & Hn)
             | (device & ss & strand & l & Hs & Hl & Hnz & Hd & Hn)].
      * exists 0%nat, strands, strand, l. rewrite Nat.add_0_r. done.
      * exists (S device), ss, strand, l.
        replace (first + S device)%nat with (S first + device)%nat by lia.
        done.
    + intros (device & ss & strand & l & Hs & Hl & Hnz & Hd & Hn).
      destruct device as [|device].
      * left. simpl in Hs. injection Hs as ->.
        rewrite Nat.add_0_r in Hd. exists strand, l. done.
      * right. exists device, ss, strand, l.
        replace (S first + device)%nat with (first + S device)%nat by lia.
        done.
Qed.

End Sweep.

Lemma after_prefix {Status : Type} (universes : list string)
    (st : @LoopState Status) (new : list (@Effect Status)) :
  let effs :=
    effects (emit st (ProcessFrame :: (UpdateUniverse <$> universes)))
      ++ new in
  sentMessages effs = sentMessages (effects st) ++ sentMessages new
  /\ reports effs = reports (effects st) ++ reports new
  /\ outputs effs = outputs (effects st) ++ outputs new
  /\ sendResults effs = sendResults (effects st) ++ sendResults new.
Proof.
  unfold emit. cbn [effects].
  destruct (quiet_prefix (Status := Status) universes)
    as (Q1 & Q2 & Q3 & Q4).
  rewrite !sentMessages_app, !reports_app, !outputs_app, !sendResults_app.
  rewrite Q1, Q2, Q3, Q4, !app_nil_r. done.
Qed.

Example sweep_jobs :
  frameJobs Sweeps.frame
  = [(1%nat, Example.pixels); (1%nat, Example.pixels)]
  /\ frameFailures Sweeps.frame = ["no such strand"].
Proof. vm_compute. split; reflexivity. Qed.

(** X1.  A sweep hands to [Send] exactly one message for every strand of
    non-zero length whose buffer [GetStrandData] returns, in the order of
    the devices and of their strands, whatever [Send] answers and whatever
    happens to the other strands: a strand without buffer or a refused
    message does not end the sweep.  The buffers hold fewer than 21846
    elements. *)
Theorem X1_sweep_sends_every_available_strand {Status : Type} {C : Type}
    `{color.Color C} (universes : list string) (f : @Frame C)
    (st : @LoopState Status) :
  Forall fits (frameJobs f) ->
  exists st',
    iteration universes f st = Some st'
    /\ sentMessages (effects st')
       = sentMessages (effects st) ++ (jobMessage <$> frameJobs f)
    /\ forall deviceStrands (n : nat) (strandData : list C),
         GetStrands f = inr deviceStrands ->
         ((n, strandData) ∈ frameJobs f
          <-> exists device strands strand strandLen,
                deviceStrands !! device = Some strands
                /\ strands !! strand = Some strandLen
                /\ strandLen <> 0
                /\ GetStrandData f device strand = inr strandData
                /\ n = S strand).
Proof.
  intros Hfits.
  destruct (iteration_observed universes f st Hfits)
    as (st' & Hit & new & E & M & _).
  exists st'. split; [exact Hit|]. split.
  - rewrite E, (proj1 (after_prefix universes st new)), M. reflexivity.
  - intros deviceStrands n strandData Hds. unfold frameJobs. rewrite Hds.
    apply (sweepJobs_spec f deviceStrands n strandData 0).
Qed.

Lemma X1_sweep_sends_every_available_strand_witness :
  let st := Example.start {| oc := Some (Example.failing 1) |} in
  Forall fits (frameJobs Sweeps.frame)
  /\ exists st',
       iteration ["ring"] Sweeps.frame st = Some st'
       /\ sentMessages (effects st')
          = [deviceMessage Example.pixels; deviceMessage Example.pixels].
Proof.
  intros st.
  assert (Hfits : Forall fits (frameJobs Sweeps.frame))
    by (repeat constructor; unfold fits; simpl; lia).
  split; [exact Hfits|].
  destruct (X1_sweep_sends_every_available_strand ["ring"] Sweeps.frame st
              Hfits) as (st' & Hit & Hsent & _).
  exists st'. split; [exact Hit | exact Hsent].
Defined.

(** X2.  What a sweep hands to [sendErr] are the errors of [GetStrands]
    and of [GetStrandData], one report for each, wrapped with the call
    site and nothing else; an error returned by [Send] is never
    reported. *)
Theorem X2_sweep_reports_only_data_errors {Status : Type} {C : Type}
    `{color.Color C} (universes : list string) (f : @Frame C)
    (st : @LoopState Status) :
  Forall fits (frameJobs f) ->
  exists st',
    iteration universes f st = Some st'
    /\ reports (effects st')
       = reports (effects st) ++ (dataError <$> frameFailures f)
    /\ (frameFailures f = [] -> reports (effects st') = reports (effects st))
    /\ forall errGo,
         errors.context (dataError errGo) = {["stack" := "FadeCandy.RunLoop"]}
         /\ errors.message (dataError errGo) = errGo.
Proof.
  intros Hfits.
  destruct (iteration_observed universes f st Hfits)
    as (st' & Hit & new & E & _ & _ & _ & R & _).
  assert (Hrep : reports (effects st')
                 = reports (effects st) ++ (dataError <$> frameFailures f)).
  { rewrite E, (proj1 (proj2 (after_prefix universes st new))), R.
    reflexivity. }
  exists st'. split; [exact Hit|]. split; [exact Hrep|]. split.
  - intros Hnone. rewrite Hrep, Hnone. apply app_nil_r.
  - intros errGo. split; reflexivity.
Qed.

Lemma X2_sweep_reports_only_data_errors_witness :
  let st := Example.start {| oc := None |} in
  Forall fits (frameJobs Sweeps.frame)
  /\ exists st',
       iteration [] Sweeps.frame st = Some st'
       /\ reports (effects st') = [dataError "no such strand"]
       /\ sendResults (effects st') = [Some notOnline; Some notOnline].
Proof.
  intros st.
  assert (Hfits : Forall fits (frameJobs Sweeps.frame))
    by (repeat constructor; unfold fits; simpl; lia).
  split; [exact Hfits|].
  destruct (X2_sweep_reports_only_data_errors [] Sweeps.frame st Hfits)
    as (st' & Hit & Hrep & _).
  exists st'. split; [exact Hit|]. split; [exact Hrep|].
  vm_compute in Hit. injection Hit as <-. reflexivity.
Defined.

(** ** The connection during a sweep *)

Lemma sendAll_offline (fc : FadeCandy) (msgs : list opc.Message) :
  oc fc = None ->
  sendAll fc msgs = (replicate (List.length msgs) (Some notOnline), fc).
Proof.
  intros Hoc. induction msgs as [|m msgs IH]; [reflexivity|].
  cbn [sendAll]. unfold Send at 1. rewrite Hoc, IH. reflexivity.
Qed.

(** On a connection the messages are consecutive writes. *)
Lemma sendAll_online (msgs : list opc.Message) :
  forall client,
    sendAll {| oc := Some client |} msgs
    = (imap (fun i m =>
               transportFailure
                 <$> opc.transport client (opc.writes client + i) m) msgs,
       {| oc := Some {| opc.dial := opc.dial client;
                        opc.transport := opc.transport client;
                        opc.writes :=
                          opc.writes client + List.length msgs |} |}).
Proof.
  induction msgs as [|m msgs IH]; intros client.
  - simpl. rewrite Nat.add_0_r. by destruct client.
  - cbn [sendAll]. unfold Send at 1, opc.Send. cbn [oc].
    destruct (opc.transport client (opc.writes client) m) as [errGo|] eqn:Ht;
      rewrite IH; cbn [imap opc.writes opc.transport opc.dial List.length];
      rewrite Nat.add_0_r, Ht; cbn [fmap option_fmap option_map];
      (f_equal; [f_equal|]);
      try (apply imap_ext; intros i x _; simpl; do 2 f_equal; lia);
      do 3 f_equal; lia.
Qed.

Lemma sendOutcomes_results {Status : Type} (effs : list (@Effect Status)) :
  sendOutcomes effs = (fun r => bool_decide (r = None)) <$> sendResults effs.
Proof.
  induction effs as [|e effs IH]; [reflexivity|].
  destruct e as [| | | | | |m [err|]| | |]; simpl; rewrite ?IH; reflexivity.
Qed.

Lemma printed_spec {C : Type} `{color.Color C}
    (jobs : list (nat * list C)) (o : Output) :
  forall results,
    o ∈ printed jobs results
    <-> exists i job err,
          jobs !! i = Some job /\ results !! i = Some (Some err)
          /\ o = Stdout (strip job).
Proof.
  induction jobs as [|job jobs IH]; intros results.
  - split; [intros Hin; by apply elem_of_nil in Hin|].
    intros (i & j & e & Hj & _). done.
  - destruct results as [|[err|] results]; cbn [printed].
    + split; [intros Hin; by apply elem_of_nil in Hin|].
      intros (i & j & e & _ & Hr & _). done.
    + rewrite elem_of_cons, IH. split.
      * intros [-> | (i & j & e & Hj & Hr & ->)].
        -- by exists 0%nat, job, err.
        -- by exists (S i), j, e.
      * intros ([|i] & j & e & Hj & Hr & ->).
        -- left. simpl in Hj. by injection Hj as ->.
        -- right. by exists i, j, e.
    + rewrite IH. split.
      * intros (i & j & e & Hj & Hr & ->). by exists (S i), j, e.
      * intros ([|i] & j & e & Hj & Hr & ->); [done|]. by exists i, j, e.
Qed.

Lemma string_app_assoc (s1 s2 s3 : string) :
  (s1 +:+ s2) +:+ s3 = s1 +:+ (s2 +:+ s3).
Proof.
  induction s1 as [|c s1 IH]; [reflexivity|].
  change (String c ((s1 +:+ s2) +:+ s3) = String c (s1 +:+ (s2 +:+ s3))).
  f_equal. exact IH.
Qed.

Lemma string_app_empty (s : string) : s +:+ "" = s.
Proof.
  induction s as [|c s IH]; [reflexivity|].
  change (String c (s +:+ "") = String c s). f_equal. exact IH.
Qed.

Lemma fill_extends_strip {C : Type} `{color.Color C} (strandData : list C) :
  forall i line m line' m',
    fill strandData i line m = Some (line', m') ->
    exists tail, line' = line +:+ tail.
Proof.
  induction strandData as [|rgba rest IH]; intros i line m line' m' Hfill.
  - injection Hfill as <- _. exists "". symmetry. apply string_app_empty.
  - cbn [fill] in Hfill. destruct (pixel rgba) as [[r g] b].
    apply bind_Some in Hfill as (m1 & _ & Hfill).
    apply IH in Hfill as [tail ->].
    eexists. apply string_app_assoc.
Qed.

Lemma printed_all_refused {C : Type} `{color.Color C}
    (jobs : list (nat * list C)) (err : errors.Error) :
  printed jobs (replicate (List.length jobs) (Some err))
  = (fun job => Stdout (strip job)) <$> jobs.
Proof. induction jobs as [|job jobs IH]; [done|]. simpl. by rewrite IH. Qed.

Lemma pacing_all_refused (n : nat) (r : time.Duration) :
  pacing (replicate (S n) false) r = 5 * time.Second.
Proof.
  revert r. induction n as [|n IH]; intros r; [reflexivity|].
  change (replicate (S (S n)) false) with (false :: replicate (S n) false).
  unfold pacing in *. cbn [fold_left]. apply IH.
Qed.

Lemma run_connect_failed {Status : Type} (Md5 : option Status -> list Z)
    (fc : FadeCandy) (fresh : opc.Client) (connectC : Chan) server refresh
    (evs : list (Select Tick)) :
  oc fc = None ->
  opc.dial fresh server <> None ->
  (run Md5 fc fresh connectC server refresh evs).1 = {| oc := None |}.
Proof.
  intros Hoc Hdial. unfold run, opc.Connect. rewrite Hoc.
  destruct (opc.dial fresh server) as [errGo|]; [|done].
  by destruct (reportInline connectC _ _) as [[outs waited]|].
Qed.

(** X3.  On a connection, the messages of a sweep are consecutive writes:
    the message of the [i]-th strand that has one is write number
    [writes + i], [Send] returns the wrapped transport error of that write
    or none, and the sweep leaves the connection with one write more for
    every message, whether the writes failed or not. *)
Theorem X3_sweep_messages_are_consecutive_writes {Status : Type} {C : Type}
    `{color.Color C} (universes : list string) (f : @Frame C)
    (st : @LoopState Status) (client : opc.Client) :
  Forall fits (frameJobs f) ->
  conn st = {| oc := Some client |} ->
  exists st',
    iteration universes f st = Some st'
    /\ conn st'
       = {| oc := Some {| opc.dial := opc.dial client;
                          opc.transport := opc.transport client;
                          opc.writes :=
                            opc.writes client + List.length (frameJobs f) |} |}
    /\ sendResults (effects st')
       = sendResults (effects st)
           ++ imap (fun i job =>
                      transportFailure
                        <$> opc.transport client (opc.writes client + i)
                              (jobMessage job))
                (frameJobs f).
Proof.
  intros Hfits Hconn.
  destruct (iteration_observed universes f st Hfits)
    as (st' & Hit & new & E & _ & R & Cn & _).
  cbn [emit conn] in R, Cn. rewrite Hconn, sendAll_online in R, Cn.
  cbn [fst snd] in R, Cn. rewrite length_fmap in Cn.
  exists st'. split; [exact Hit|]. split; [exact Cn|].
  rewrite E, (proj2 (proj2 (proj2 (after_prefix universes st new)))), R.
  by rewrite imap_fmap.
Qed.

Lemma X3_sweep_messages_are_consecutive_writes_witness :
  let st := Example.start {| oc := Some (Example.failing 1) |} in
  (Forall fits (frameJobs Sweeps.frame)
   /\ conn st = {| oc := Some (Example.failing 1) |})
  /\ exists st',
       iteration [] Sweeps.frame st = Some st'
       /\ opc.writes <$> oc (conn st') = Some 2%nat
       /\ sendResults (effects st')
          = [Some (transportFailure "broken pipe"); None].
Proof.
  intros st.
  assert (Hfits : Forall fits (frameJobs Sweeps.frame))
    by (repeat constructor; unfold fits; simpl; lia).
  split; [split; [exact Hfits | reflexivity]|].
  destruct (X3_sweep_messages_are_consecutive_writes [] Sweeps.frame st
              (Example.failing 1) Hfits eq_refl)
    as (st' & Hit & Hconn & Hres).
  exists st'. split; [exact Hit|]. rewrite Hconn, Hres. split; reflexivity.
Defined.

(** X4.  A sweep prints one line for every message that [Send] refused
    and none for a message it accepted; the line of a strand starts with
    the strand number in two digits, the number being the position of the
    strand in its device counted from one, strands of length zero
    included. *)
Theorem X4_refused_messages_are_printed {Status : Type} {C : Type}
    `{color.Color C} (universes : list string) (f : @Frame C)
    (st : @LoopState Status) :
  Forall fits (frameJobs f) ->
  exists st' results,
    iteration universes f st = Some st'
    /\ sendResults (effects st') = sendResults (effects st) ++ results
    /\ List.length results = List.length (frameJobs f)
    /\ outputs (effects st')
       = outputs (effects st) ++ printed (frameJobs f) results
    /\ (forall o,
          o ∈ printed (frameJobs f) results
          <-> exists i job err,
                frameJobs f !! i = Some job
                /\ results !! i = Some (Some err)
                /\ o = Stdout (strip job))
    /\ (forall job,
          job ∈ frameJobs f ->
          exists tail,
            strip job = fmt.d02 (Z.of_nat job.1) +:+ " → " +:+ tail).
Proof.
  intros Hfits.
  destruct (iteration_observed universes f st Hfits)
    as (st' & Hit & new & E & _ & R & _ & _ & O).
  exists st', (sendAll (conn st) (jobMessage <$> frameJobs f)).1.
  split; [exact Hit|].
  destruct (after_prefix universes st new) as (_ & _ & HO & HR).
  cbn zeta in HO, HR. rewrite <- E in HO, HR.
  split; [by rewrite HR, R|].
  split; [by rewrite sendAll_length, length_fmap|].
  split; [by rewrite HO, O|].
  split; [intros o; apply printed_spec|].
  intros [n strandData] Hjob.
  rewrite Forall_forall in Hfits. specialize (Hfits _ Hjob).
  destruct (strandMessage_built n strandData Hfits) as [line Hm].
  unfold strip. cbn [fst snd]. rewrite Hm. cbn.
  unfold strandMessage in Hm.
  apply fill_extends_strip in Hm as [tail ->].
  exists tail. apply string_app_assoc.
Qed.

Lemma X4_refused_messages_are_printed_witness :
  let st := Example.start {| oc := Some (Example.failing 1) |} in
  Forall fits (frameJobs Sweeps.frame)
  /\ exists st',
       iteration [] Sweeps.frame st = Some st'
       /\ List.length (outputs (effects st')) = 1%nat.
Proof.
  intros st.
  assert (Hfits : Forall fits (frameJobs Sweeps.frame))
    by (repeat constructor; unfold fits; simpl; lia).
  split; [exact Hfits|].
  destruct (X4_refused_messages_are_printed [] Sweeps.frame st Hfits)
    as (st' & results & Hit & _).
  exists st'. split; [exact Hit|].
  vm_compute in Hit. injection Hit as <-. reflexivity.
Defined.

(** X5.  When the connection attempt of [run] failed, the streamer it
    starts works without connection: every message of a sweep is refused
    with "fadecandy server not online", nothing is written to the
    transport, one line is printed for every strand that has a buffer, and
    a sweep with at least one such strand leaves the interval at 5 s. *)
Theorem X5_failed_connect_leaves_streamer_offline {Status : Type} {C : Type}
    `{color.Color C} (Md5 : option Status -> list Z) (fc : FadeCandy)
    (fresh : opc.Client) (connectC : Chan) (server : string)
    (refresh0 : time.Duration) (evs : list (Select Tick))
    (universes : list string) (f : @Frame C) (st : @LoopState Status) :
  oc fc = None ->
  opc.dial fresh server <> None ->
  conn st = (run Md5 fc fresh connectC server refresh0 evs).1 ->
  Forall fits (frameJobs f) ->
  frameJobs f <> [] ->
  exists st',
    iteration universes f st = Some st'
    /\ conn st' = {| oc := None |}
    /\ sendResults (effects st')
       = sendResults (effects st)
           ++ replicate (List.length (frameJobs f)) (Some notOnline)
    /\ outputs (effects st')
       = outputs (effects st)
           ++ ((fun job => Stdout (strip job)) <$> frameJobs f)
    /\ refresh st' = 5 * time.Second.
Proof.
  intros Hoc Hdial Hconn Hfits Hjobs.
  rewrite (run_connect_failed Md5 fc fresh connectC server refresh0 evs
             Hoc Hdial) in Hconn.
  destruct (iteration_observed universes f st Hfits)
    as (st' & Hit & new & E & _ & R & Cn & _ & O).
  cbn [emit conn] in R, Cn, O.
  rewrite Hconn, sendAll_offline in R, Cn, O by reflexivity.
  cbn [fst snd] in R, Cn, O. rewrite length_fmap in R, O.
  rewrite printed_all_refused in O.
  destruct (after_prefix universes st new) as (_ & _ & HO & HR).
  cbn zeta in HO, HR. rewrite <- E in HO, HR.
  exists st'. split; [exact Hit|]. split; [exact Cn|].
  split; [by rewrite HR, R|]. split; [by rewrite HO, O|].
  destruct (iteration_advances _ _ _ _ Hit) as (grown & E' & _ & Hr).
  rewrite Hr, sendOutcomes_results.
  assert (Hgrown : sendResults grown
                   = replicate (List.length (frameJobs f)) (Some notOnline)).
  { apply (app_inv_head (sendResults (effects st))).
    rewrite <- sendResults_app, <- E', HR, R. reflexivity. }
  rewrite Hgrown, fmap_replicate.
  destruct (frameJobs f) as [|job jobs]; [done|].
  apply pacing_all_refused.
Qed.

Lemma X5_failed_connect_leaves_streamer_offline_witness :
  let fc := (run Example.digest {| oc := None |} Example.offline
               (ChOpen None) "127.0.0.1:7890" StartFadeCandy_refresh []).1 in
  let st := Example.start fc in
  (oc {| oc := None |} = None
   /\ opc.dial Example.offline "127.0.0.1:7890" <> None
   /\ Forall fits (frameJobs Sweeps.frame)
   /\ frameJobs Sweeps.frame <> [])
  /\ exists st',
       iteration [] Sweeps.frame st = Some st'
       /\ refresh st' = 5 * time.Second.
Proof.
  intros fc st.
  assert (Hfits : Forall fits (frameJobs Sweeps.frame))
    by (repeat constructor; unfold fits; simpl; lia).
  assert (Hdial : opc.dial Example.offline "127.0.0.1:7890" <> None)
    by discriminate.
  assert (Hjobs : frameJobs Sweeps.frame <> []) by discriminate.
  split; [repeat split; assumption|].
  destruct (X5_failed_connect_leaves_streamer_offline Example.digest
              {| oc := None |} Example.offline (ChOpen None) "127.0.0.1:7890"
              StartFadeCandy_refresh [] [] Sweeps.frame st
              eq_refl Hdial eq_refl Hfits Hjobs)
    as (st' & Hit & _ & _ & _ & Hr).
  exists st'. split; assumption.
Defined.

(** ** Failures of the render loop *)

Lemma outputs_outs {Status : Type} (outs : list Output) :
  outputs (Status := Status) (Out <$> outs) = outs.
Proof. induction outs as [|o outs IH]; [done|]. simpl. f_equal. exact IH. Qed.

(** X6.  A rendering failure does not end the render loop and is reported
    exactly once: for every tick whose fingerprint changed and whose
    rendering failed there is one output, either the error sent on the
    error channel with the endpoint under the key "url", or its text on
    the standard error stream; other ticks produce no output, and the
    loop is back in its select after the last tick.  No report finds the
    error channel closed. *)
Theorem X6_render_failures_are_reported_once {Status : Type}
    (Md5 : option Status -> list Z) (server : string)
    (refresh0 : time.Duration) (ticks : list (@Tick Status)) (last : list Z) :
  Forall (fun t => tickErrorC t <> ChClosed) ticks ->
  Forall2 (shows server)
    (outputs (renderLoop Md5 server refresh0 (Fired <$> ticks) last).1)
    (renderFailures Md5 last ticks)
  /\ (renderLoop Md5 server refresh0 (Fired <$> ticks) last).2 = Blocked.
Proof.
  intros Hopen. revert last.
  induction Hopen as [|t ticks Hopen _ IH]; intros last.
  - split; [constructor | reflexivity].
  - cbn [fmap list_fmap renderLoop renderFailures].
    destruct (decide (Md5 (cached t) = last)) as [Heq|Hne].
    + rewrite sample_unchanged by assumption. simpl. apply IH.
    + rewrite sample_changed by assumption.
      destruct (test8LED t) as [err|].
      * destruct (reportInline_returns (tickErrorC t)
                    (errors.With err "url" server) err Hopen)
          as (outs & waited & -> & _ & Hout).
        simpl. rewrite outputs_app, outputs_outs.
        split; [|apply IH].
        destruct Hout as [[-> _] | [-> _]]; simpl;
          (constructor; [|apply IH]); [by left | by right].
      * simpl. apply IH.
Qed.

Lemma X6_render_failures_are_reported_once_witness :
  let failure := errors.New "no LEDs" in
  let ticks :=
    [{| cached := Some 1%nat; test8LED := Some failure;
        tickErrorC := ChOpen (Some 0) |};
     {| cached := Some 1%nat; test8LED := Some failure;
        tickErrorC := ChOpen (Some 0) |}] in
  Forall (fun t => tickErrorC t <> ChClosed) ticks
  /\ Forall2 (shows "127.0.0.1:7890")
       (outputs (renderLoop Example.digest "127.0.0.1:7890"
                   StartFadeCandy_refresh (Fired <$> ticks) []).1)
       [failure].
Proof.
  intros failure ticks.
  assert (Hopen : Forall (fun t => tickErrorC t <> ChClosed) ticks)
    by (repeat constructor; discriminate).
  split; [exact Hopen|].
  exact (proj1 (X6_render_failures_are_reported_once Example.digest
                  "127.0.0.1:7890" StartFadeCandy_refresh ticks [] Hopen)).
Defined.

(** ** The connection attempt of run *)



(** ** What every schedule preserves *)

Set Warnings "-clear-no-such-hyp".

Section Consistency.

Context {Status : Type} {C : Type} `{color.Color C}.
Variable Md5 : option Status -> list Z.
Variables (fc : FadeCandy) (server : string).

Lemma initial_consistent : consistent (Status := Status) initial.
Proof.
  unfold consistent, initial. simpl.
  repeat split; try done; try (intros [[err Herr] | Hp]; done).
Qed.

Lemma step_consistent (s : @Step Status C) (σ σ' : @System Status) :
  consistent σ ->
  step Md5 fc server s σ = Some σ' ->
  consistent σ'.
Proof.
  intros (Ja & Jb & Jc & Jd & Je & Jf & Jg) Hs.
  destruct s as [|msg| |rendered|ready| |seqRunner topology|f|];
    cbn [step] in Hs.
  - destruct (quitC_closed σ) eqn:Hq; [done|].
    injection Hs as <-. unfold consistent. cbn. naive_solver.
  - destruct (subPc σ) eqn:Hsp; [|done].
    injection Hs as <-. unfold consistent, withSub. cbn. naive_solver.
  - destruct (subPc σ) eqn:Hsp; [|done].
    destruct (quitC_closed σ) eqn:Hq; [|done].
    injection Hs as <-. unfold consistent, withSub. cbn. naive_solver.
  - destruct (runPc σ) as [last|last err| |] eqn:Hrp; try done.
    destruct (sample Md5 (status (cache σ)) rendered last)
      as [[last' effs] [err|]];
      injection Hs as <-; unfold consistent, withRun; cbn; naive_solver.
  - destruct (runPc σ) as [last|last err| |] eqn:Hrp; try done.
    destruct (errorC_closed σ) eqn:He.
    + cbn in Hs. injection Hs as <-.
      unfold consistent, withRun. cbn. naive_solver.
    + destruct (reportInline_returns (ChOpen ready)
                  (errors.With err "url" server) err)
        as (outs & waited & Hrep & _); [done|].
      rewrite Hrep in Hs. injection Hs as <-.
      unfold consistent, withRun. cbn. naive_solver.
  - destruct (runPc σ) as [last|last err| |] eqn:Hrp; try done.
    destruct (quitC_closed σ) eqn:Hq; [|done].
    injection Hs as <-. unfold consistent, withRun. cbn. naive_solver.
  - destruct (streamPc σ) as [|universes st|err0|] eqn:Htp; try done.
    destruct (startup seqRunner topology) as [err|universes];
      injection Hs as <-; unfold consistent, withStream; cbn; naive_solver.
  - destruct (streamPc σ) as [|universes st|err0|] eqn:Htp; try done.
    destruct (streamLoop universes [Fired f] st) as [st' [| |]];
      injection Hs as <-; unfold consistent, withStream; cbn; naive_solver.
  - destruct (streamPc σ) as [|universes st|err0|] eqn:Htp; try done.
    destruct (quitC_closed σ) eqn:Hq; [|done].
    injection Hs as <-. unfold consistent, withStream. cbn. naive_solver.
Qed.

Lemma exec_consistent (schedule : list (@Step Status C)) :
  forall σ σ',
    consistent σ ->
    exec Md5 fc server schedule σ = Some σ' ->
    consistent σ'.
Proof.
  induction schedule as [|s rest IH]; intros σ σ' Hc Hexec.
  - by injection Hexec as <-.
  - cbn [exec] in Hexec. apply bind_Some in Hexec as (σ1 & Hstep & Hrest).
    eapply IH; [|exact Hrest]. eapply step_consistent; eassumption.
Qed.

End Consistency.

(** * Properties of the command *)

(** ** strings.Split *)

Lemma Split_not_nil (s : string) (sep : Ascii.ascii) :
  gostrings.Split s sep <> [].
Proof.
  destruct s as [|c s]; [done|]. simpl.
  destruct (decide (c = sep)); [done|].
  by destruct (gostrings.Split s sep).
Qed.

Lemma Split_length (s : string) (sep : Ascii.ascii) :
  List.length (gostrings.Split s sep) = S (gostrings.Count s sep).
Proof.
  induction s as [|c s IH]; [reflexivity|]. simpl.
  destruct (decide (c = sep)); simpl.
  - by rewrite IH.
  - pose proof (Split_not_nil s sep).
    destruct (gostrings.Split s sep); [done|]. exact IH.
Qed.

Lemma Join_cons (e : string) (rest : list string) (sep : string) :
  rest <> [] ->
  gostrings.Join (e :: rest) sep = e +:+ sep +:+ gostrings.Join rest sep.
Proof. by destruct rest. Qed.

Lemma Join_Split (s : string) (sep : Ascii.ascii) :
  gostrings.Join (gostrings.Split s sep) (String sep EmptyString) = s.
Proof.
  induction s as [|c s IH]; [reflexivity|]. simpl.
  pose proof (Split_not_nil s sep) as Hne.
  destruct (decide (c = sep)) as [->|Hc].
  - rewrite Join_cons by assumption. simpl. by rewrite IH.
  - destruct (gostrings.Split s sep) as [|field fields]; [done|].
    destruct fields as [|field' fields].
    + simpl in *. by rewrite IH.
    + rewrite Join_cons by done. rewrite Join_cons in IH by done.
      subst s. reflexivity.
Qed.

Lemma Split_fields (s : string) (sep : Ascii.ascii) :
  Forall (fun field => gostrings.Count field sep = 0%nat)
    (gostrings.Split s sep).
Proof.
  induction s as [|c s IH]; [by repeat constructor|]. simpl.
  destruct (decide (c = sep)) as [->|Hc]; [by constructor|].
  destruct (gostrings.Split s sep) as [|field fields].
  - constructor; [|constructor]. simpl. by rewrite decide_False.
  - apply Forall_cons in IH as [Hf Hfs]. constructor; [|exact Hfs].
    simpl. by rewrite decide_False.
Qed.

Example Split_examples :
  gostrings.Split "" cmd.comma = [""]
  /\ gostrings.Split "a,b" cmd.comma = ["a"; "b"]
  /\ gostrings.Split "a," cmd.comma = ["a"; ""]
  /\ gostrings.Split ",a" cmd.comma = [""; "a"].
Proof. vm_compute. repeat split. Qed.

(** ** The loop over the portals *)

Section Portals.

Context {Rest : Type}.
Variable Parse : string -> string + @cmd.URL Rest.

Implicit Types (acts : list (@cmd.Action Rest)) (errs : list errors.Error).

Lemma tecthulhusOf_app acts1 acts2 :
  cmd.tecthulhusOf (acts1 ++ acts2)
  = cmd.tecthulhusOf acts1 ++ cmd.tecthulhusOf acts2.
Proof.
  induction acts1 as [|a acts1 IH]; [reflexivity|].
  destruct a; simpl; rewrite ?IH; reflexivity.
Qed.

Lemma portalStep_spec i portal errs acts :
  (cmd.portalStep Parse i portal (errs, acts)).1
  = errs ++ option_list (cmd.refused Parse portal)
  /\ cmd.tecthulhusOf (cmd.portalStep Parse i portal (errs, acts)).2
     = cmd.tecthulhusOf acts ++ option_list (cmd.started Parse i portal).
Proof.
  unfold cmd.portalStep, cmd.refused, cmd.started.
  destruct (Parse portal) as [errGo|u]; simpl.
  - by rewrite app_nil_r.
  - case_decide; simpl; rewrite tecthulhusOf_app, app_nil_r; done.
Qed.

Lemma portalsLoop_spec portals :
  forall i errs acts,
    (cmd.portalsLoop Parse portals i (errs, acts)).1
    = errs ++ omap (cmd.refused Parse) portals
    /\ cmd.tecthulhusOf (cmd.portalsLoop Parse portals i (errs, acts)).2
       = cmd.tecthulhusOf acts
           ++ omap id (imap (fun k => cmd.started Parse (i + k)) portals).
Proof.
  induction portals as [|portal rest IH]; intros i errs acts.
  - simpl. by rewrite !app_nil_r.
  - cbn [cmd.portalsLoop].
    destruct (cmd.portalStep Parse i portal (errs, acts)) as [errs1 acts1]
      eqn:Hstep.
    destruct (portalStep_spec i portal errs acts) as [He Ha].
    rewrite Hstep in He, Ha. cbn [fst snd] in He, Ha.
    destruct (IH (S i) errs1 acts1) as [IHe IHa].
    rewrite IHe, IHa, He, Ha, <- !app_assoc. cbn [omap list_omap imap].
    rewrite Nat.add_0_r. split.
    + f_equal. destruct (cmd.refused Parse portal); reflexivity.
    + f_equal. unfold id at 2.
      replace (imap ((fun k => cmd.started Parse (i + k)) ∘ S) rest)
        with (imap (fun k => cmd.started Parse (S i + k)) rest).
      2:{ apply imap_ext. intros k p _. simpl. f_equal. lia. }
      destruct (cmd.started Parse i portal); reflexivity.
Qed.

Lemma startServer_spec fcserver terminal tecthulhus :
  (cmd.startServer Parse fcserver terminal tecthulhus).1
  = omap (cmd.refused Parse) (gostrings.Split tecthulhus cmd.comma)
  /\ cmd.tecthulhusOf (cmd.startServer Parse fcserver terminal tecthulhus).2
     = omap id (imap (cmd.started Parse)
                  (gostrings.Split tecthulhus cmd.comma)).
Proof.
  unfold cmd.startServer, cmd.initOPC.
  destruct (portalsLoop_spec (gostrings.Split tecthulhus cmd.comma) 0 []
              [cmd.GoRunTUI; cmd.GatewayStart fcserver terminal])
    as [He Ha].
  destruct (cmd.portalsLoop Parse _ 0 _) as [errs acts].
  cbn [fst snd] in *. rewrite tecthulhusOf_app, He, Ha. simpl.
  by rewrite app_nil_r.
Qed.

Lemma started_or_refused i portal :
  (is_Some (cmd.started Parse i portal) /\ cmd.refused Parse portal = None)
  \/ (cmd.started Parse i portal = None
      /\ is_Some (cmd.refused Parse portal)).
Proof.
  unfold cmd.started, cmd.refused.
  destruct (Parse portal); [right | left]; split; eauto.
Qed.

Lemma portals_partition (portals : list string) :
  forall i,
    (List.length (omap (cmd.refused Parse) portals)
     + List.length
         (omap id (imap (fun k => cmd.started Parse (i + k)) portals)))%nat
    = List.length portals.
Proof.
  induction portals as [|portal rest IH]; intros i; [reflexivity|].
  cbn [omap list_omap imap]. rewrite Nat.add_0_r.
  replace (imap ((fun k => cmd.started Parse (i + k)) ∘ S) rest)
    with (imap (fun k => cmd.started Parse (S i + k)) rest).
  2:{ apply imap_ext. intros k p _. simpl. f_equal. lia. }
  specialize (IH (S i)). unfold id at 1.
  destruct (started_or_refused i portal) as [[[t ->] ->] | [-> [e ->]]];
    simpl in *; lia.
Qed.

End Portals.

(** ** Which tecthulhus the command starts *)

Section Started.

Context {Rest : Type}.
Variable Parse : string -> string + @cmd.URL Rest.

Lemma started_member (portals : list string) (t : @cmd.URL Rest * bool) :
  t ∈ omap id (imap (cmd.started Parse) portals)
  <-> exists k portal,
        portals !! k = Some portal /\ cmd.started Parse k portal = Some t.
Proof.
  rewrite list_elem_of_omap. split.
  - intros (o & Hin & Ho). apply elem_of_lookup_imap in Hin
      as (k & portal & -> & Hk). exists k, portal. done.
  - intros (k & portal & Hk & Hs). exists (Some t). split; [|done].
    rewrite <- Hs. by apply elem_of_lookup_imap_2.
Qed.

Lemma refused_member (portals : list string) (err : errors.Error) :
  err ∈ omap (cmd.refused Parse) portals
  <-> exists portal errGo,
        portal ∈ portals /\ Parse portal = inl errGo
        /\ err = errors.With (errors.With (errors.Wrap errGo) "url" portal)
                   "stack" (stack.Trace "startServer").
Proof.
  rewrite list_elem_of_omap. unfold cmd.refused. split.
  - intros (portal & Hin & Hr).
    destruct (Parse portal) as [errGo|u] eqn:Hp; [|done].
    injection Hr as <-. by exists portal, errGo.
  - intros (portal & errGo & Hin & Hp & ->). exists portal.
    by rewrite Hp.
Qed.

End Started.

(** X8.  In every state the three goroutines can reach from their start,
    whatever the schedule: the error channel is closed exactly when
    [RunLoop] has returned or panicked, so the reports [RunLoop] makes
    itself never find it closed; the render loop panics only on a report
    made after that; the status channel is closed exactly when the
    subscriber has returned; and the subscriber, the render loop and,
    unless its startup failed, the streamer return only after [quitC] was
    closed. *)
Theorem X8_channels_are_closed_by_terminated_loops_only {Status : Type}
    {C : Type} `{color.Color C} (Md5 : option Status -> list Z)
    (fc : FadeCandy) (server : string) (schedule : list (@Step Status C))
    (σ : @System Status) :
  exec Md5 fc server schedule initial = Some σ ->
  (errorC_closed σ = true
   <-> (exists err, streamPc σ = StreamExited err)
       \/ streamPc σ = StreamPanicked)
  /\ (forall universes st,
        streamPc σ = StreamSelect universes st -> errorC_closed σ = false)
  /\ (runPc σ = RunPanicked -> errorC_closed σ = true)
  /\ (sendsOnClosed σ <> 0%nat -> runPc σ = RunPanicked)
  /\ (statusC_closed σ = true <-> subPc σ = SubExited)
  /\ (subPc σ = SubExited -> quitC_closed σ = true)
  /\ (runPc σ = RunExited -> quitC_closed σ = true)
  /\ (streamPc σ = StreamExited None -> quitC_closed σ = true).
Proof.
  intros Hexec.
  destruct (exec_consistent Md5 fc server schedule initial σ
              initial_consistent Hexec)
    as (Ja & Jb & Jc & Jd & Je & Jf & Jg).
  repeat split; try tauto; try apply Ja; try apply Jb.
  intros universes st Hpc.
  destruct (errorC_closed σ) eqn:He; [|reflexivity].
  destruct (proj1 Ja eq_refl) as [[err Herr] | Hp]; congruence.
Qed.

Lemma X8_channels_are_closed_by_terminated_loops_only_witness :
  let schedule : list (@Step nat color.rgba) :=
    [StreamStart None (inr []); StreamTimer Sweeps.unmapped; Shutdown;
     RunQuit] in
  exists σ,
    exec Example.digest {| oc := None |} "127.0.0.1:7890" schedule initial
    = Some σ
    /\ errorC_closed σ = false
    /\ (runPc σ = RunExited -> quitC_closed σ = true).
Proof.
  intros schedule. eexists. split; [vm_compute; reflexivity|].
  split; [reflexivity|].
  refine (proj1 (proj2 (proj2 (proj2 (proj2 (proj2 (proj2
    (X8_channels_are_closed_by_terminated_loops_only Example.digest
       {| oc := None |} "127.0.0.1:7890" schedule _ _)))))))).
  vm_compute. reflexivity.
Defined.

(** ** The portals of the command *)

(** X9.  [startServer] goes through the comma-separated fields of the
    flag, which joined by commas give the flag back and are one more than
    its commas: for every field that [url.Parse] refuses it returns one
    error, in order, and for every other field it starts one tecthulhu,
    in order, so that errors and tecthulhus together are as many as the
    fields; a refused field does not stop the fields after it. *)
Theorem X9_every_portal_is_started_or_refused {Rest : Type}
    (Parse : string -> string + @cmd.URL Rest) (fcserver : string)
    (terminal : bool) (tecthulhus : string) :
  let portals := gostrings.Split tecthulhus cmd.comma in
  let result := cmd.startServer Parse fcserver terminal tecthulhus in
  gostrings.Join portals "," = tecthulhus
  /\ List.length portals = S (gostrings.Count tecthulhus cmd.comma)
  /\ result.1 = omap (cmd.refused Parse) portals
  /\ cmd.tecthulhusOf result.2 = omap id (imap (cmd.started Parse) portals)
  /\ (List.length result.1 + List.length (cmd.tecthulhusOf result.2))%nat
     = List.length portals.
Proof.
  intros portals result.
  destruct (startServer_spec Parse fcserver terminal tecthulhus) as [He Ha].
  split; [apply (Join_Split tecthulhus cmd.comma)|].
  split; [apply Split_length|].
  split; [exact He|]. split; [exact Ha|].
  unfold result. rewrite He, Ha.
  apply (portals_partition Parse (gostrings.Split tecthulhus cmd.comma) 0).
Qed.

(** X10.  The tecthulhu of the first field of the flag is the only one
    started as the home portal: a tecthulhu is home exactly when it comes
    from field 0.  So when the first field does not parse, no tecthulhu is
    home; the second field does not take its place. *)
Theorem X10_home_is_the_first_field {Rest : Type}
    (Parse : string -> string + @cmd.URL Rest) (fcserver : string)
    (terminal : bool) (tecthulhus : string) :
  let portals := gostrings.Split tecthulhus cmd.comma in
  let started :=
    cmd.tecthulhusOf
      (cmd.startServer Parse fcserver terminal tecthulhus).2 in
  (forall u home,
     (u, home) ∈ started
     <-> exists k portal,
           portals !! k = Some portal
           /\ cmd.started Parse k portal = Some (u, home))
  /\ (forall u k portal home,
        cmd.started Parse k portal = Some (u, home) ->
        home = bool_decide (k = 0%nat))
  /\ (forall portal errGo,
        portals !! 0%nat = Some portal ->
        Parse portal = inl errGo ->
        Forall (fun t => t.2 = false) started).
Proof.
  intros portals started.
  destruct (startServer_spec Parse fcserver terminal tecthulhus) as [_ Ha].
  assert (Hhome : forall u k portal home,
            cmd.started Parse k portal = Some (u, home) ->
            home = bool_decide (k = 0%nat)).
  { intros u k portal home. unfold cmd.started.
    destruct (Parse portal); [done|]. by intros [= _ <-]. }
  split; [|split; [exact Hhome|]].
  - intros u home. unfold started. rewrite Ha. apply started_member.
  - intros portal errGo Hfirst Hparse. apply Forall_forall.
    intros [u home] Hin. unfold started in Hin. rewrite Ha in Hin.
    apply started_member in Hin as (k & p & Hk & Hs).
    rewrite (Hhome _ _ _ _ Hs). simpl.
    destruct k as [|k]; [|reflexivity].
    fold portals in Hk. rewrite Hfirst in Hk. injection Hk as <-.
    unfold cmd.started in Hs. by rewrite Hparse in Hs.
Qed.

Lemma X10_home_is_the_first_field_witness :
  let started :=
    cmd.tecthulhusOf
      (cmd.startServer Urls.Parse "127.0.0.1:7890" false
         "http://bad host/status,http://10.0.0.2/status").2 in
  (gostrings.Split "http://bad host/status,http://10.0.0.2/status"
     cmd.comma !! 0%nat = Some "http://bad host/status"
   /\ Urls.Parse "http://bad host/status"
      = inl "invalid character in host name")
  /\ Forall (fun t => t.2 = false) started
  /\ List.length started = 1%nat.
Proof.
  intros started.
  assert (Hfirst : gostrings.Split
                     "http://bad host/status,http://10.0.0.2/status"
                     cmd.comma !! 0%nat = Some "http://bad host/status")
    by (vm_compute; reflexivity).
  assert (Hparse : Urls.Parse "http://bad host/status"
                   = inl "invalid character in host name")
    by (vm_compute; reflexivity).
  split; [split; assumption|]. split; [|vm_compute; reflexivity].
  exact (proj2 (proj2 (X10_home_is_the_first_field Urls.Parse
                         "127.0.0.1:7890" false
                         "http://bad host/status,http://10.0.0.2/status"))
           _ _ Hfirst Hparse).
Defined.

(** X11.  Every tecthulhu is started with a path of at least two bytes:
    the path of the parsed URL when that has more than one byte, and
    "/module/status/json" otherwise (a missing path or a bare "/"); the
    rest of the URL is passed on as parsed. *)
Theorem X11_short_paths_get_the_default {Rest : Type}
    (Parse : string -> string + @cmd.URL Rest) (fcserver : string)
    (terminal : bool) (tecthulhus : string) (u : @cmd.URL Rest)
    (home : bool) :
  (u, home)
    ∈ cmd.tecthulhusOf (cmd.startServer Parse fcserver terminal tecthulhus).2 ->
  (2 <= String.length (cmd.Path u))%nat
  /\ exists portal parsed,
       portal ∈ gostrings.Split tecthulhus cmd.comma
       /\ Parse portal = inr parsed
       /\ cmd.other u = cmd.other parsed
       /\ ((1 < String.length (cmd.Path parsed))%nat /\ u = parsed
           \/ (String.length (cmd.Path parsed) <= 1)%nat
              /\ cmd.Path u = "/module/status/json").
Proof.
  intros Hin.
  destruct (startServer_spec Parse fcserver terminal tecthulhus) as [_ Ha].
  rewrite Ha in Hin. apply started_member in Hin as (k & portal & Hk & Hs).
  unfold cmd.started in Hs.
  destruct (Parse portal) as [errGo|parsed] eqn:Hp; [done|].
  assert (Hportal : portal ∈ gostrings.Split tecthulhus cmd.comma)
    by (apply list_elem_of_lookup; eauto).
  destruct (decide (String.length (cmd.Path parsed) <= 1)%nat) as [Hshort|Hlong];
    injection Hs as <- <-.
  - split; [simpl; lia|]. exists portal, parsed.
    repeat (split; [done|]). right. done.
  - split; [lia|]. exists portal, parsed.
    repeat (split; [done|]). left. split; [lia | done].
Qed.

Lemma X11_short_paths_get_the_default_witness :
  let u := {| cmd.Path := "/module/status/json";
              cmd.other := "http://10.0.0.2/" |} in
  (u, true)
    ∈ cmd.tecthulhusOf
        (cmd.startServer Urls.Parse "127.0.0.1:7890" false
           "http://10.0.0.2/").2
  /\ (2 <= String.length (cmd.Path u))%nat.
Proof.
  intros u.
  assert (Hin : (u, true)
                  ∈ cmd.tecthulhusOf
                      (cmd.startServer Urls.Parse "127.0.0.1:7890" false
                         "http://10.0.0.2/").2)
    by (vm_compute; apply list_elem_of_singleton; reflexivity).
  split; [exact Hin|].
  exact (proj1 (X11_short_paths_get_the_default Urls.Parse "127.0.0.1:7890"
                  false "http://10.0.0.2/" u true Hin)).
Defined.

(** ** Main *)

Lemma EntryPoint_errors {Rest : Type}
    (Parse : string -> string + @cmd.URL Rest) fcserver terminal tecthulhus :
  (cmd.EntryPoint Parse fcserver terminal tecthulhus).1
  = omap (cmd.refused Parse) (gostrings.Split tecthulhus cmd.comma)
  /\ exists started,
       (cmd.EntryPoint Parse fcserver terminal tecthulhus).2
       = [cmd.GoListenAndServe "0.0.0.0:6060"; cmd.GoSignalLoop; cmd.Notify;
          cmd.GoRunTUI; cmd.GatewayStart fcserver terminal]
           ++ started ++ [cmd.GoRunMonitoring; cmd.CloseDoneC].
Proof.
  unfold cmd.EntryPoint.
  destruct (startServer_spec Parse fcserver terminal tecthulhus) as [He _].
  unfold cmd.startServer, cmd.initOPC in *.
  assert (Hacts : forall portals i errs acts,
            exists more,
              (cmd.portalsLoop Parse portals i (errs, acts)).2 = acts ++ more).
  { induction portals as [|portal rest IH]; intros i errs acts.
    - exists []. simpl. by rewrite app_nil_r.
    - cbn [cmd.portalsLoop]. unfold cmd.portalStep at 1.
      destruct (Parse portal) as [errGo|parsed].
      + apply IH.
      + case_decide; edestruct IH as [more ->]; eexists;
          rewrite <- app_assoc; reflexivity. }
  destruct (Hacts (gostrings.Split tecthulhus cmd.comma) 0%nat []
              [cmd.GoRunTUI; cmd.GatewayStart fcserver terminal])
    as [started Hstarted].
  destruct (cmd.portalsLoop Parse _ 0 _) as [errs acts].
  cbn [fst snd] in *. split; [exact He|].
  exists started. rewrite Hstarted. simpl. by rewrite <- app_assoc.
Qed.

(** X12.  [Main] exits the process with status -1 exactly when a field of
    the flag does not parse, and only after everything was started (the
    gateway, the tecthulhus of the fields that parse, the monitoring) and
    after logging the text of one parse error per refused field, in
    order; when every field parses it goes on to wait for [quitC]. *)
Theorem X12_main_exits_when_a_portal_is_refused {Rest : Type}
    (Parse : string -> string + @cmd.URL Rest) (verbose : bool)
    (banner fcserver : string) (terminal : bool) (tecthulhus : string)
    (quit : bool) :
  let portals := gostrings.Split tecthulhus cmd.comma in
  let entry := cmd.EntryPoint Parse fcserver terminal tecthulhus in
  let start :=
    (if verbose then [cmd.SetLevelDebug] else []) ++ [cmd.LogDebug banner] in
  let texts :=
    omap (fun portal => match Parse portal with
                        | inl errGo => Some errGo
                        | inr _ => None
                        end) portals in
  ((exists portal errGo, portal ∈ portals /\ Parse portal = inl errGo)
   <-> texts <> [])
  /\ (texts <> [] ->
      cmd.Main Parse verbose banner fcserver terminal tecthulhus quit
      = (start ++ entry.2 ++ (cmd.LogError <$> texts) ++ [cmd.OsExit (-1)],
         Returned))
  /\ (texts = [] ->
      cmd.Main Parse verbose banner fcserver terminal tecthulhus quit
      = if quit then (start ++ entry.2 ++ [cmd.Sleep time.Second], Returned)
        else (start ++ entry.2, Blocked))
  /\ exists started,
       entry.2
       = [cmd.GoListenAndServe "0.0.0.0:6060"; cmd.GoSignalLoop; cmd.Notify;
          cmd.GoRunTUI; cmd.GatewayStart fcserver terminal]
           ++ started ++ [cmd.GoRunMonitoring; cmd.CloseDoneC].
Proof.
  intros portals entry start texts. subst entry.
  destruct (EntryPoint_errors Parse fcserver terminal tecthulhus)
    as [He Hacts].
  assert (Hmap : forall l : list string,
            errors.ErrorString <$> omap (cmd.refused Parse) l
            = omap (fun portal => match Parse portal with
                                  | inl errGo => Some errGo
                                  | inr _ => None
                                  end) l).
  { induction l as [|portal l IH]; [reflexivity|].
    cbn [omap list_omap]. unfold cmd.refused at 1.
    destruct (Parse portal) as [errGo|parsed]; [|exact IH].
    rewrite fmap_cons. f_equal. exact IH. }
  assert (Htexts : errors.ErrorString
                     <$> (cmd.EntryPoint Parse fcserver terminal tecthulhus).1
                   = texts) by (rewrite He; apply Hmap).
  unfold cmd.Main.
  destruct (cmd.EntryPoint Parse fcserver terminal tecthulhus)
    as [errs acts]. cbn [fst snd] in *.
  split; [|split; [|split; [|exact Hacts]]].
  - split.
    + intros (portal & errGo & Hin & Hp) Hnil.
      assert (Hm : errGo ∈ texts).
      { unfold texts. apply list_elem_of_omap. exists portal.
        by rewrite Hp. }
      rewrite Hnil in Hm. by apply elem_of_nil in Hm.
    + intros Hne. destruct texts as [|errGo rest] eqn:Ht; [done|].
      assert (Hm : errGo ∈ texts) by (rewrite Ht; left).
      unfold texts in Hm. apply list_elem_of_omap in Hm as (portal & Hin & Hp).
      exists portal, errGo. split; [exact Hin|].
      destruct (Parse portal); [by injection Hp as -> | done].
  - intros Hne. rewrite <- Htexts in *.
    destruct errs as [|err errs]; [done|].
    by rewrite list_fmap_compose.
  - intros Hnil. rewrite <- Htexts in Hnil.
    destruct errs as [|err errs]; [|done].
    destruct quit; reflexivity.
Qed.

Lemma X12_main_exits_when_a_portal_is_refused_witness :
  let flag := "http://bad host/status,http://10.0.0.2/status" in
  omap (fun portal => match Urls.Parse portal with
                      | inl errGo => Some errGo
                      | inr _ => None
                      end) (gostrings.Split flag cmd.comma) <> []
  /\ (cmd.Main Urls.Parse false "mawt" "127.0.0.1:7890" false flag true).2
     = Returned.
Proof.
  intros flag.
  assert (Hne : omap (fun portal => match Urls.Parse portal with
                                    | inl errGo => Some errGo
                                    | inr _ => None
                                    end) (gostrings.Split flag cmd.comma)
                <> []) by (vm_compute; discriminate).
  split; [exact Hne|].
  rewrite (proj1 (proj2 (X12_main_exits_when_a_portal_is_refused Urls.Parse
                           false "mawt" "127.0.0.1:7890" false flag true))
             Hne).
  reflexivity.
Defined.

(** ** The goroutine that watches the channels *)

(** X13.  The watching goroutine of [EntryPoint] logs every non-nil error
    it receives as a warning and prints every non-empty message, in
    order, and skips nil errors and empty messages; it returns on the
    first close of [quitC] or the first stop signal and ignores what
    comes after; every return cancels the context, as its last action,
    and [quitC] is closed by it only on a stop signal, once, before the
    context is cancelled. *)
Theorem X13_watcher_cancels_on_every_return {Rest : Type}
    (before after : list cmd.Received) :
  Forall (fun ev => ev <> cmd.FromQuitC /\ ev <> cmd.FromStopC) before ->
  cmd.signalLoop (Rest := Rest) before
  = (omap cmd.shown before, Blocked)
  /\ cmd.signalLoop (Rest := Rest) (before ++ cmd.FromQuitC :: after)
     = (omap cmd.shown before ++ [cmd.Cancel], Returned)
  /\ cmd.signalLoop (Rest := Rest) (before ++ cmd.FromStopC :: after)
     = (omap cmd.shown before
          ++ [cmd.LogWarn "CTRL-C Seen"; cmd.CloseQuitC; cmd.Cancel],
        Returned)
  /\ Forall (fun a => a <> cmd.Cancel /\ a <> cmd.CloseQuitC)
       (omap (cmd.shown (Rest := Rest)) before).
Proof.
  induction 1 as [|ev before [Hq Hs] _ (IH1 & IH2 & IH3 & IH4)].
  - repeat split. constructor.
  - destruct ev as [[err|]|msg| |]; try done;
      cbn [app cmd.signalLoop omap list_omap cmd.shown];
      rewrite ?IH1, ?IH2, ?IH3; try case_decide;
      repeat split; try assumption; constructor; try assumption; done.
Qed.

Lemma X13_watcher_cancels_on_every_return_witness :
  let before :=
    [cmd.FromErrorC None; cmd.FromMsgC "";
     cmd.FromErrorC (Some (errors.New "fadecandy server not online"))] in
  Forall (fun ev => ev <> cmd.FromQuitC /\ ev <> cmd.FromStopC) before
  /\ cmd.signalLoop (Rest := unit)
       (before ++ cmd.FromStopC :: [cmd.FromMsgC "late"])
     = ([cmd.LogWarn "fadecandy server not online";
         cmd.LogWarn "CTRL-C Seen"; cmd.CloseQuitC; cmd.Cancel], Returned).
Proof.
  intros before.
  assert (Hbefore : Forall (fun ev => ev <> cmd.FromQuitC
                                      /\ ev <> cmd.FromStopC) before)
    by (repeat constructor; discriminate).
  split; [exact Hbefore|].
  exact (proj1 (proj2 (proj2
    (X13_watcher_cancels_on_every_return (Rest := unit) before
       [cmd.FromMsgC "late"] Hbefore)))).
Defined.

(** ** The cache *)

Lemma cacheAfter_cons {Status : Type} (st : @LastStatus Status)
    (msg : option PortalMsg) (msgs : list (option PortalMsg)) :
  cacheAfter st (msg :: msgs) = cacheAfter (subscriberRecv msg st) msgs.
Proof.
  unfold cacheAfter, subscriberRecv, homeStatus, DeepCopy.
  cbn [omap list_omap].
  destruct msg as [m|]; [|reflexivity].
  destruct (Home m); [|reflexivity].
  rewrite last_cons. by destruct (last _).
Qed.

(** X14.  After any sequence of received messages the cache holds the
    status of the last message that had the home flag set, or what it held
    before if there was none; when [quitC] is closed the subscriber closes
    its channel and returns with that cache, and nothing that arrives
    later is read. *)
Theorem X14_cache_holds_the_last_home_status {Status : Type}
    (msgs : list (option (@PortalMsg Status)))
    (later : list (Select (option (@PortalMsg Status))))
    (st : @LastStatus Status) :
  subscriber (Fired <$> msgs) st = (cacheAfter st msgs, [], Blocked)
  /\ subscriber ((Fired <$> msgs) ++ QuitClosed :: later) st
     = (cacheAfter st msgs, [CloseStatusC], Returned).
Proof.
  revert st. induction msgs as [|msg msgs IH]; intros st.
  - split; reflexivity.
  - rewrite cacheAfter_cons. cbn [fmap list_fmap app subscriber].
    apply IH.
Qed.

(** ** A run of the streamer *)

Section Run.

Context {Status : Type} {C : Type} `{color.Color C}.

Implicit Types (st : @LoopState Status) (f : @Frame C).

Lemma streamLoop_run universes (later : list (Select (@Frame C)))
    (frames : list (@Frame C)) :
  Forall (fun f => Forall fits (frameJobs f)) frames ->
  forall st,
    exists st',
      streamLoop universes ((Fired <$> frames) ++ QuitClosed :: later) st
      = (st', Returned)
      /\ (streamLoop universes (Fired <$> frames) st).2 = Blocked
      /\ sentMessages (effects st')
         = sentMessages (effects st)
             ++ (jobMessage <$> (frames ≫= frameJobs))
      /\ reports (effects st')
         = reports (effects st) ++ (dataError <$> (frames ≫= frameFailures))
      /\ List.length (waits (effects st'))
         = (List.length (waits (effects st)) + S (List.length frames))%nat.
Proof.
  induction 1 as [|f frames Hfits _ IH]; intros st.
  - eexists. split; [reflexivity|]. split; [reflexivity|].
    unfold emit. cbn. rewrite sentMessages_app, reports_app, waits_app.
    cbn. rewrite !app_nil_r, length_app. cbn. split; [done|].
    split; [done|]. lia.
  - destruct (iteration_observed universes f (emit st [Wait (refresh st)])
                Hfits) as (st1 & Hit & new & E & M & _ & _ & R & _).
    destruct (iteration_advances _ _ _ _ Hit) as (grown & E' & W & _).
    destruct (IH st1) as (st' & Hloop & Hblocked & HM & HR & HW).
    exists st'.
    change ((Fired <$> f :: frames) ++ QuitClosed :: later)
      with (Fired f :: ((Fired <$> frames) ++ QuitClosed :: later)).
    change (Fired <$> f :: frames) with (Fired f :: (Fired <$> frames)).
    rewrite !(streamLoop_fired _ _ _ _ _ Hit).
    split; [exact Hloop|]. split; [exact Hblocked|].
    destruct (after_prefix universes (emit st [Wait (refresh st)]) new)
      as (HM1 & HR1 & _). cbn zeta in HM1, HR1. rewrite <- E in HM1, HR1.
    rewrite HM, HR, HW, HM1, HR1, M, R, E'.
    unfold emit. cbn [effects].
    rewrite !sentMessages_app, !reports_app, !waits_app, W.
    cbn [sentMessages reports waits]. rewrite !app_nil_r.
    cbn [mbind list_bind]. rewrite !fmap_app, <- !app_assoc, !length_app.
    cbn. repeat split; try done. lia.
Qed.

End Run.

(** X15.  A run of [RunLoop] over any number of ticks followed by the
    close of [quitC]: it returns a nil error, has armed one timer per tick
    and one more, has handed to [Send] the messages of the frames in the
    order of the ticks and to [sendErr] their data errors, closes the
    error channel as its last action, and does not look at what comes
    after the close; without the close it is left waiting in its
    select. *)
Theorem X15_run_of_the_streamer {Status : Type} {C : Type}
    `{color.Color C} (fc : FadeCandy) (universes : list string)
    (frames : list (@Frame C)) (later : list (Select (@Frame C))) :
  Forall (fun f => Forall fits (frameJobs f)) frames ->
  exists fc' effs,
    RunLoop (Status := Status) fc None (inr universes)
      ((Fired <$> frames) ++ QuitClosed :: later)
    = (None, fc', effs ++ [CloseErrorC], Returned)
    /\ sentMessages effs = jobMessage <$> (frames ≫= frameJobs)
    /\ reports effs = dataError <$> (frames ≫= frameFailures)
    /\ List.length (waits effs) = S (List.length frames)
    /\ (RunLoop (Status := Status) fc None (inr universes)
          (Fired <$> frames)).2 = Blocked.
Proof.
  intros Hfits.
  destruct (streamLoop_run universes later frames Hfits
              {| refresh := 30 * time.Millisecond; conn := fc;
                 effects := @nil (@Effect Status) |})
    as (st' & Hloop & Hblocked & HM & HR & HW).
  exists (conn st'), (effects st').
  rewrite !RunLoop_started. cbn zeta. rewrite Hloop, Hblocked.
  split; [reflexivity|]. split; [exact HM|]. split; [exact HR|].
  split; [exact HW | reflexivity].
Qed.

Lemma X15_run_of_the_streamer_witness :
  Forall (fun f => Forall fits (frameJobs f))
    [Sweeps.frame; Sweeps.unmapped; Sweeps.frame]
  /\ exists fc' effs,
       RunLoop (Status := nat) {| oc := Some (Example.failing 3) |} None
         (inr ["ring"])
         ((Fired <$> [Sweeps.frame; Sweeps.unmapped; Sweeps.frame])
            ++ QuitClosed :: [Fired Sweeps.frame])
       = (None, fc', effs ++ [CloseErrorC], Returned)
       /\ List.length (sentMessages effs) = 4%nat
       /\ List.length (waits effs) = 4%nat.
Proof.
  assert (Hfits : Forall (fun f => Forall fits (frameJobs f))
                    [Sweeps.frame; Sweeps.unmapped; Sweeps.frame]).
  { repeat constructor; unfold fits; simpl; lia. }
  split; [exact Hfits|].
  destruct (X15_run_of_the_streamer (Status := nat)
              {| oc := Some (Example.failing 3) |} ["ring"]
              [Sweeps.frame; Sweeps.unmapped; Sweeps.frame]
              [Fired Sweeps.frame] Hfits)
    as (fc' & effs & Hrun & HM & _ & HW & _).
  exists fc', effs. split; [exact Hrun|]. rewrite HM, HW.
  split; reflexivity.
Defined.
